(** * number_game: the raw-terminal guess editor, the round loop and the
    statistics of [src/number_game.py] (class [NumberGame]).

    Modelling choices.
    - A keystroke is the one-character string [sys.stdin.read(1)] hands to
      [get_key]; characters are the code points below 256 ([ascii] read as
      Latin-1), on which [str.lower], [str.isdigit] and [int] are given as
      Python defines them there.
    - Terminal output ([print], [sys.stdout.write], [play_sound],
      [clear_screen]) is an ordered list of [event]s; colours and waveforms
      are left out.
    - [random.randint] is not modelled: the drawn target is an argument of
      [play_round].
    - An exception that leaves a method is the outcome [Failed]; reaching the
      end of the keystrokes typed so far, with the method still inside its
      loop, is the outcome [Waiting].
    - [get_guess], [play_round] and [run] take the keys as [get_key]
      returned them: an exception of [get_key], of [play_sound] or of
      [clear_screen] inside them, and the [ValueError] of [random.randint]
      on an empty range, are not represented. The exceptions of [get_key]
      itself are, in [Tty].
    - In [Tty], the input is the characters that reach the program from the
      call on; [tty.setraw] also discards what was queued before the call
      (it sets the mode with TCSAFLUSH), and that queue is not
      represented. *)

From Stdlib Require Import ZArith QArith List String Ascii Bool Lia DecimalString.
From Stdlib Require DecimalFacts DecimalPos.
Import ListNotations.
Local Open Scope string_scope.
Local Open Scope list_scope.
Local Open Scope Z_scope.

(** ** Python builtins used by the program *)

Module Py.

(** The exceptions that can leave the modelled methods. *)
Inductive exn : Type :=
| ValueError           (* int() on a string it cannot parse *)
| ZeroDivisionError    (* true division by zero *)
| OSError              (* a failing read or fileno *)
| TermiosError         (* termios.error from tcgetattr / tcsetattr *)
| KeyboardInterrupt.

Definition code (c : ascii) : N := N_of_ascii c.

Definition between (lo n hi : N) : bool := ((lo <=? n) && (n <=? hi))%N.

(** [c.lower()] for a code point below 256: A-Z and the Latin-1 capitals
    U+00C0..U+00DE (the multiplication sign U+00D7 apart) move up by 32. *)
Definition lower (c : ascii) : ascii :=
  let n := code c in
  if between 65 n 90 || (between 192 n 222 && negb (n =? 215)%N)
  then ascii_of_N (n + 32) else c.

(** Decimal digits (Unicode category Nd) below 256: '0'..'9'. *)
Definition isdecimal_char (c : ascii) : bool := between 48 (code c) 57.

(** [c.isdigit()] below 256: the decimal digits and the superscripts
    U+00B2, U+00B3, U+00B9, which are digits but not decimals. *)
Definition isdigit_char (c : ascii) : bool :=
  let n := code c in
  isdecimal_char c || (n =? 178)%N || (n =? 179)%N || (n =? 185)%N.

Fixpoint forallb_string (p : ascii -> bool) (s : string) : bool :=
  match s with
  | EmptyString => true
  | String c s' => p c && forallb_string p s'
  end.

(** [s.isdigit()]: every character is a digit and there is at least one. *)
Definition isdigit (s : string) : bool :=
  match s with
  | EmptyString => false
  | _ => forallb_string isdigit_char s
  end.

(** Truth value of a string: [if guess] / [not guess]. *)
Definition truthy (s : string) : bool :=
  match s with EmptyString => false | _ => true end.

Fixpoint digits_value (acc : Z) (s : string) : Z :=
  match s with
  | EmptyString => acc
  | String c s' => digits_value (10 * acc + Z.of_N (code c - 48)) s'
  end.

(** [int(s)] on the strings the program passes to it (those for which
    [s.isdigit()] holds): the value of a non-empty run of decimal digits,
    [ValueError] as soon as one character is a digit that is not a decimal
    (int('²') raises). *)
Definition int (s : string) : exn + Z :=
  if truthy s && forallb_string isdecimal_char s
  then inr (digits_value 0 s) else inl ValueError.

(** [str(n)] for an integer: the decimal digits, after a minus sign when
    [n] is negative. *)
Definition str (n : Z) : string := NilZero.string_of_int (Z.to_int n).

(** [len(s)], as an integer. *)
Definition len (s : string) : Z := Z.of_nat (String.length s).

(** [s[:-1]]: all but the last character. *)
Fixpoint drop_last (s : string) : string :=
  match s with
  | EmptyString => EmptyString
  | String c EmptyString => EmptyString
  | String c s' => String c (drop_last s')
  end.

(** [s += ch] for a one-character [ch]. *)
Definition push (s : string) (ch : ascii) : string :=
  String.append s (String ch EmptyString).

(** [a / b] on integers, exact in Q (the rounding of the float result is
    not modelled); dividing by zero raises. *)
Definition truediv (a b : Z) : exn + Q :=
  if b =? 0 then inl ZeroDivisionError else inr (inject_Z a / inject_Z b)%Q.

End Py.

(** ** Data model *)

(** The three constructor arguments of [NumberGame.__init__]. *)
Record config : Type := Config {
  min_num : Z;
  max_num : Z;
  max_attempts : Z
}.

(** [NumberGame()] with the default arguments. *)
Definition default_config : config := Config 1 10 3.

(** [self.stats], the dict with the two keys 'games' and 'wins'. *)
Record stats : Type := Stats {
  games : Z;
  wins : Z
}.

Definition initial_stats : stats := Stats 0 0.

(** Notes played by [beep], named as in the comments of [play_sound]. *)
Inductive note : Type := C5 | E5 | G5 | G4 | F4 | E4 | A4 | Bb4.

Inductive direction : Type := Low | High.

(** What the program writes to the terminal or plays, in order. *)
Inductive event : Type :=
| Prompt (guess : string)             (* "\r" prompt guess, line 53 *)
| Interrupted                         (* "Game interrupted!", line 60 *)
| Erase                               (* "\b \b", line 66 *)
| Newline                             (* print(), lines 71, 160, 164 *)
| ValidationError                     (* "Please enter a valid number!" *)
| RangeError (lo hi : Z)              (* "Please enter a number between" *)
| ClearScreen                         (* self.clear_screen() *)
| NewGame (lo hi attempts : Z)        (* the three lines 138-140 *)
| AttemptsRemaining (attempts : Z)    (* line 144 *)
| Beep (n : note)                     (* one beep of play_sound *)
| Congratulations (target : Z)        (* line 155 *)
| Hint (d : direction)                (* "Too low/high! Try again." *)
| GameOver (target : Z)               (* line 171 *)
| StatsHeader                         (* "=== Final Stats ===" *)
| GamesPlayed (n : Z)
| GamesWon (n : Z)
| WinRate (q : Q)
| Goodbye.

(** How a call ends: it returns [a] leaving [rest] unread, an exception
    leaves it, or the keystrokes typed so far are used up while the guess
    loop still holds the buffer [guess]. [Unfinished] marks a loop cut by
    its iteration bound; [guessing_loop] and [play_round] never yield it
    (see [play_round_within_bound]). *)
Inductive outcome (A : Type) : Type :=
| Done (a : A) (rest : list ascii)
| Failed (e : Py.exn)
| Waiting (guess : string)
| Unfinished.
Arguments Done {A} a rest.
Arguments Failed {A} e.
Arguments Waiting {A} guess.
Arguments Unfinished {A}.

(** ** GuessEditor: [get_guess] *)

(** The value [get_guess] returns: the string 'quit' or the number. *)
Inductive guess_value : Type :=
| Quit
| Num (num : Z).

(** Where one pass through the body of [while True] leaves the editor. *)
Inductive editor : Type :=
| Editing (guess : string)      (* [continue], or falling off the body *)
| Returns (v : guess_value)     (* [return] *)
| Raises (e : Py.exn).

Definition backspace : ascii := "008".
Definition delete : ascii := "127".
Definition carriage_return : ascii := "013".

Section GuessEditor.

Variable self : config.

(** The body of the loop of [get_guess], lines 56-92, for the key [ch] read
    at buffer [guess]: what it prints and where it leaves the editor. *)
Definition on_key (guess : string) (ch : ascii) : list event * editor :=
  if Ascii.eqb (Py.lower ch) "x" then
    ([Interrupted], Returns Quit)
  else if (Ascii.eqb ch delete || Ascii.eqb ch backspace) && Py.truthy guess then
    ([Erase], Editing (Py.drop_last guess))
  else if Ascii.eqb ch carriage_return then
    if negb (Py.truthy guess) then
      ([Newline], Editing guess)
    else if negb (Py.isdigit guess) then
      ([Newline; ValidationError], Editing "")
    else
      match Py.int guess with
      | inl e => ([Newline], Raises e)
      | inr num =>
          if negb ((min_num self <=? num) && (num <=? max_num self)) then
            ([Newline; RangeError (min_num self) (max_num self)], Editing "")
          else
            ([Newline], Returns (Num num))
      end
  else if Py.isdigit_char ch && (Py.len guess <? Py.len (Py.str (max_num self))) then
    ([], Editing (Py.push guess ch))
  else
    ([], Editing guess).

(** The loop of [get_guess] from buffer [guess]: each pass shows the prompt
    with the buffer, reads one key and runs the body on it. *)
Fixpoint edit (guess : string) (keys : list ascii)
  : list event * outcome guess_value :=
  match keys with
  | [] => ([Prompt guess], Waiting guess)
  | ch :: keys' =>
      let (printed, next) := on_key guess ch in
      match next with
      | Editing guess' =>
          let (later, r) := edit guess' keys' in
          (Prompt guess :: printed ++ later, r)
      | Returns v => (Prompt guess :: printed, Done v keys')
      | Raises e => (Prompt guess :: printed, Failed e)
      end
  end.

(** [get_guess]: the loop started on the empty buffer. *)
Definition get_guess (keys : list ascii) : list event * outcome guess_value :=
  edit "" keys.

End GuessEditor.

(** ** FeedbackService: [play_sound] *)

Inductive sound_type : Type := SoundWin | SoundLose | SoundHint.

(** [play_sound(sound_type, too_low=None)]: the beeps it plays, lines
    108-118. A hint is A4 when [too_low] is true, Bb4 otherwise. *)
Definition play_sound (kind : sound_type) (too_low : option bool) : list event :=
  match kind with
  | SoundWin => [Beep C5; Beep E5; Beep G5]
  | SoundLose => [Beep G4; Beep F4; Beep E4]
  | SoundHint =>
      [Beep (match too_low with Some true => A4 | _ => Bb4 end)]
  end.

(** ** Statistics: [show_stats] *)

(** [show_stats], lines 120-129. The rate is [(wins / games) * 100]. *)
Definition show_stats (st : stats) : list event * outcome unit :=
  let head := [StatsHeader; GamesPlayed (games st); GamesWon (wins st)] in
  if games st >? 0 then
    match Py.truediv (wins st) (games st) with
    | inl e => (head, Failed e)
    | inr ratio => (head ++ [WinRate (ratio * 100)%Q; Goodbye], Done tt [])
    end
  else (head ++ [Goodbye], Done tt []).

(** ** RoundController: [play_round] *)

(** The value [play_round] returns: the string 'quit' or 'continue'. *)
Inductive round_value : Type :=
| RoundQuit
| RoundContinue.

Definition add_game (st : stats) : stats := Stats (games st + 1) (wins st).
Definition add_win (st : stats) : stats := Stats (games st) (wins st + 1).

Section RoundController.

Variable self : config.
Variable target : Z.

(** Lines 160-164: the feedback for a guess that is not the target. *)
Definition wrong_guess_feedback (guess : Z) : list event :=
  [Newline] ++ play_sound SoundHint (Some (guess <? target))
  ++ [Hint (if guess <? target then Low else High); Newline].

(** Lines 168-171: the feedback once no attempt is left. *)
Definition lose_feedback : list event :=
  [ClearScreen] ++ play_sound SoundLose None ++ [GameOver target].

(** Lines 153-155: the feedback for the right guess. *)
Definition win_feedback : list event :=
  [ClearScreen] ++ play_sound SoundWin None ++ [Congratulations target].

(** The loop [while attempts > 0] of [play_round] and the two lines after
    it, lines 143-174. [bound] limits the number of passes; [play_round]
    gives it the value that [attempts] itself imposes. *)
Fixpoint play_loop (bound : nat) (attempts : Z) (st : stats) (keys : list ascii)
  : list event * outcome (round_value * stats) :=
  if attempts >? 0 then
    match bound with
    | O => ([], Unfinished)
    | S bound' =>
        let (typed, r) := get_guess self keys in
        let shown := AttemptsRemaining attempts :: typed in
        match r with
        | Waiting guess => (shown, Waiting guess)
        | Failed e => (shown, Failed e)
        | Unfinished => (shown, Unfinished)
        | Done Quit rest =>
            (shown, Done (RoundQuit, add_game st) rest)
        | Done (Num guess) rest =>
            if guess =? target then
              (shown ++ win_feedback,
               Done (RoundContinue, add_game (add_win st)) rest)
            else
              let attempts' := attempts - 1 in
              let heard :=
                wrong_guess_feedback guess
                ++ (if attempts' =? 0 then lose_feedback else []) in
              let (later, r') := play_loop bound' attempts' st rest in
              (shown ++ heard ++ later, r')
        end
    end
  else ([], Done (RoundContinue, add_game st) keys).

(** The loop entered with [attempts] left: each pass takes one attempt, so
    [attempts] passes at most are made. *)
Definition guessing_loop (attempts : Z) (st : stats) (keys : list ascii)
  : list event * outcome (round_value * stats) :=
  play_loop (Z.to_nat attempts) attempts st keys.

(** [play_round], lines 131-174, for the drawn [target]. *)
Definition play_round (st : stats) (keys : list ascii)
  : list event * outcome (round_value * stats) :=
  let attempts := max_attempts self in
  let (later, r) := guessing_loop attempts st keys in
  (ClearScreen :: NewGame (min_num self) (max_num self) attempts :: later, r).

End RoundController.

Definition keys_of (s : string) : list ascii := list_ascii_of_string s.

(** Typing [s] and pressing Enter. *)
Definition typed (s : string) : list ascii := keys_of s ++ [carriage_return].

(** ** RawInputReader: [get_key] *)

Module Tty.

(** The library calls [get_key] makes on the terminal. *)
Inductive prim : Type :=
| PFileno | PTcgetattr | PSetraw | PRead | PTcsetattr.

Inductive when : Type := TCSANOW | TCSADRAIN | TCSAFLUSH.

Section Terminal.

(** The attribute list of termios, and what [tty.setraw] turns it into. *)
Variable termios : Type.
Variable cfmakeraw : termios -> termios.

(** A call made on the terminal, as recorded in the order of the calls. *)
Inductive call : Type :=
| Fileno
| Tcgetattr (fd : Z)
| Setraw (fd : Z)
| Read (n : Z)
| Tcsetattr (fd : Z) (w : when) (settings : termios).

(** The terminal and standard input. [faults p] is the exception the
    library call [p] raises here, if it raises. *)
Record world : Type := World {
  attrs : termios;              (* the current terminal mode *)
  stdin_fd : Z;
  stdin : list ascii;           (* characters still to be read *)
  faults : prim -> option Py.exn;
  calls : list call             (* the calls made so far, oldest first *)
}.

Inductive result (A : Type) : Type :=
| Ok (a : A)
| Err (e : Py.exn).
Arguments Ok {A} a.
Arguments Err {A} e.

(** Computations on the terminal that may raise; the terminal keeps the
    changes made before the exception. *)
Definition io (A : Type) : Type := world -> result A * world.

Definition ret {A} (a : A) : io A := fun w => (Ok a, w).

Definition bind {A B} (m : io A) (k : A -> io B) : io B :=
  fun w =>
    match m w with
    | (Ok a, w') => k a w'
    | (Err e, w') => (Err e, w')
    end.

(** [try: body finally: cleanup]: [cleanup] runs however [body] ends; an
    exception of [cleanup] replaces the outcome of [body]. *)
Definition try_finally {A} (body : io A) (cleanup : io unit) : io A :=
  fun w =>
    let (r, w1) := body w in
    match cleanup w1 with
    | (Ok _, w2) => (r, w2)
    | (Err e, w2) => (Err e, w2)
    end.

Notation "x <- m ;; k" := (bind m (fun x => k))
  (at level 61, m at next level, right associativity).
Notation "m ;;; k" := (bind m (fun _ => k))
  (at level 61, right associativity).

Definition record (c : call) (w : world) : world :=
  World (attrs w) (stdin_fd w) (stdin w) (faults w) (calls w ++ [c]).

Definition set_attrs (a : termios) (w : world) : world :=
  World a (stdin_fd w) (stdin w) (faults w) (calls w).

Definition set_stdin (s : list ascii) (w : world) : world :=
  World (attrs w) (stdin_fd w) s (faults w) (calls w).

(** A library call: it is recorded, then raises if the terminal says so and
    otherwise has its effect [run]. *)
Definition library_call {A} (p : prim) (c : call) (run : world -> A * world)
  : io A :=
  fun w =>
    let w' := record c w in
    match faults w' p with
    | Some e => (Err e, w')
    | None => let (a, w'') := run w' in (Ok a, w'')
    end.

(** [sys.stdin.fileno()]. *)
Definition fileno : io Z :=
  library_call PFileno Fileno (fun w => (stdin_fd w, w)).

(** [termios.tcgetattr(fd)]. *)
Definition tcgetattr (fd : Z) : io termios :=
  library_call PTcgetattr (Tcgetattr fd) (fun w => (attrs w, w)).

(** [termios.tcsetattr(fd, when, settings)]. *)
Definition tcsetattr (fd : Z) (wh : when) (settings : termios) : io unit :=
  library_call PTcsetattr (Tcsetattr fd wh settings)
    (fun w => (tt, set_attrs settings w)).

(** [tty.setraw(fd)]: the terminal mode becomes its raw version. (The
    input it discards, queued before the call, is not part of [stdin].) *)
Definition setraw (fd : Z) : io unit :=
  library_call PSetraw (Setraw fd) (fun w => (tt, set_attrs (cfmakeraw (attrs w)) w)).

(** [sys.stdin.read(1)]: the next character as a string, the empty string
    at end of input. *)
Definition read1 : io string :=
  library_call PRead (Read 1)
    (fun w =>
       match stdin w with
       | [] => (EmptyString, w)
       | c :: s => (String c EmptyString, set_stdin s w)
       end).

(** [get_key], lines 33-44. *)
Definition get_key : io string :=
  fd <- fileno ;;
  old_settings <- tcgetattr fd ;;
  ch <- try_finally
          (fd' <- fileno ;;
           setraw fd' ;;;
           read1)
          (tcsetattr fd TCSADRAIN old_settings) ;;
  ret ch.

End Terminal.

Arguments World {termios}.
Arguments attrs {termios}.
Arguments stdin_fd {termios}.
Arguments stdin {termios}.
Arguments faults {termios}.
Arguments calls {termios}.
Arguments Fileno {termios}.
Arguments Tcgetattr {termios}.
Arguments Setraw {termios}.
Arguments Read {termios}.
Arguments Tcsetattr {termios}.
Arguments get_key {termios}.
Arguments Ok {A} a.
Arguments Err {A} e.

(** A terminal whose mode is just cooked or raw, for concrete runs. *)
Inductive mode : Type := Cooked | Raw.

Definition no_fault : prim -> option Py.exn := fun _ => None.

Definition read_interrupted : prim -> option Py.exn :=
  fun p => match p with PRead => Some Py.KeyboardInterrupt | _ => None end.

Definition console (f : prim -> option Py.exn) : world mode :=
  World Cooked 0 ["7"%char; "013"%char] f [].

End Tty.

(** ** RoundOutcome, as the specification words it *)

(** Section 3 of the specification: "RoundOutcome: a tagged variant -
    Win(guess), Exhausted, Quit". The last one is named [Quitted] here,
    [Quit] being the value of [get_guess]. *)
Inductive round_outcome : Type :=
| Win (guess : Z)
| Exhausted
| Quitted.

Section SpecRound.

Variable self : config.
Variable target : Z.

(** Section 4.3 of the specification, steps 3 and 4, on the guess editor of
    the program: while attempts remain, a guess or a quit is obtained; a
    quit gives [Quit]; a guess equal to the secret gives [Win(guess)]; any
    other guess costs one attempt; with no attempt left the outcome is
    [Exhausted]. [None] when the editor does not return. *)
Fixpoint spec_guessing (attempts : nat) (keys : list ascii)
  : option (round_outcome * list ascii) :=
  match attempts with
  | O => Some (Exhausted, keys)
  | S attempts' =>
      match snd (get_guess self keys) with
      | Done Quit rest => Some (Quitted, rest)
      | Done (Num guess) rest =>
          if guess =? target then Some (Win guess, rest)
          else spec_guessing attempts' rest
      | _ => None
      end
  end.

(** The outcome of a round with [max_attempts] attempts. *)
Definition spec_round (keys : list ascii) : option (round_outcome * list ascii) :=
  spec_guessing (Z.to_nat (max_attempts self)) keys.

End SpecRound.

(** What [play_round] returns, and the counters it leaves, for each
    outcome: 'quit' for a quit and 'continue' for the two others; one more
    game in each case, and one more win for a win. *)
Definition outcome_value (o : round_outcome) : round_value :=
  match o with
  | Quitted => RoundQuit
  | Win _ | Exhausted => RoundContinue
  end.

Definition outcome_stats (o : round_outcome) (st : stats) : stats :=
  match o with
  | Win _ => add_game (add_win st)
  | Exhausted | Quitted => add_game st
  end.

(** ** Auxiliary definitions for the statements *)

Fixpoint repeat_events (n : nat) (block : list event) : list event :=
  match n with
  | O => []
  | S n' => block ++ repeat_events n' block
  end.

(** Counts the characters of [s] that satisfy [p]. *)
Fixpoint count_string (p : ascii -> bool) (s : string) : nat :=
  match s with
  | EmptyString => O
  | String c s' => (if p c then 1 else 0) + count_string p s'
  end.

(** The number of decimal digits of an integer: those of its decimal
    writing, the sign not counted. *)
Definition decimal_digit_count (n : Z) : Z :=
  Z.of_nat (count_string Py.isdecimal_char (Py.str n)).

(** The events [get_guess] can produce. *)
Definition editor_event (e : event) : Prop :=
  match e with
  | Prompt _ | Interrupted | Erase | Newline | ValidationError | RangeError _ _ =>
      True
  | _ => False
  end.

(** The three ways the loop of [play_round] returns, told apart by what was
    printed and by the counters; the returned value is the same in the last
    two. *)
Definition ends_by_quit (target attempts : Z) (st : stats) (out : list event)
    (v : round_value) (st' : stats) : Prop :=
  v = RoundQuit /\ wins st' = wins st /\
  In Interrupted out /\ ~ In (Congratulations target) out /\
  ~ In (GameOver target) out.

Definition ends_by_win (target attempts : Z) (st : stats) (out : list event)
    (v : round_value) (st' : stats) : Prop :=
  v = RoundContinue /\ wins st' = wins st + 1 /\
  In (Congratulations target) out /\ ~ In Interrupted out /\
  ~ In (GameOver target) out.

Definition ends_exhausted (target attempts : Z) (st : stats) (out : list event)
    (v : round_value) (st' : stats) : Prop :=
  v = RoundContinue /\ wins st' = wins st /\
  ~ In Interrupted out /\ ~ In (Congratulations target) out /\
  (In (GameOver target) out \/ attempts <= 0).

(** ** SessionController: [run] and [main] *)

(** What a session writes: the events of its rounds and of [show_stats],
    and the line "Press SPACE to play again, or 'q' to quit...". *)
Inductive screen : Type :=
| Shown (e : event)
| MenuPrompt.

(** How [run] ends: it returns, an exception leaves it, or the keys typed
    so far are used up inside [get_guess] or inside the menu loop.
    [Unbounded] marks a session cut by its iteration bound; [run] never
    yields it (see [run_within_bound]). *)
Inductive session_end : Type :=
| Exited (st : stats) (rest : list ascii)
| Crashed (e : Py.exn)
| AwaitingGuess (guess : string)
| AwaitingMenu (st : stats)
| Unbounded.

Inductive menu_choice : Type := PlayAgain | Leave.

(** The loop of lines 187-194 without its two exits' effects: keys are read
    until a space or a 'q' in either case; [None] when the keys run out. *)
Fixpoint menu (keys : list ascii) : option (menu_choice * list ascii) :=
  match keys with
  | [] => None
  | key :: rest =>
      if Ascii.eqb key " " then Some (PlayAgain, rest)
      else if Ascii.eqb (Py.lower key) "q" then Some (Leave, rest)
      else menu rest
  end.

Definition shown (out : list event) : list screen := map Shown out.

Section SessionController.

Variable self : config.

(** The target drawn by [random.randint] in each round, by round number. *)
Variable targets : nat -> Z.

(** [show_stats] called from [run], followed by [return]. *)
Definition leave_with_stats (st : stats) (rest : list ascii)
  : list screen * session_end :=
  let (printed, r) := show_stats st in
  (shown printed,
   match r with
   | Failed e => Crashed e
   | _ => Exited st rest
   end).

(** The loop [while True] of [run], lines 178-194, from round number
    [round] on. [bound] limits the number of rounds. *)
Fixpoint run_loop (bound : nat) (round : nat) (st : stats) (keys : list ascii)
  : list screen * session_end :=
  match bound with
  | O => ([], Unbounded)
  | S bound' =>
      let (played, r) := play_round self (targets round) st keys in
      match r with
      | Failed e => (shown played, Crashed e)
      | Waiting guess => (shown played, AwaitingGuess guess)
      | Unfinished => (shown played, Unbounded)
      | Done (RoundQuit, st') rest =>
          if games st' >? 0 then
            let (printed, e) := leave_with_stats st' rest in
            (shown played ++ printed, e)
          else (shown played, Exited st' rest)
      | Done (RoundContinue, st') rest =>
          match menu rest with
          | None => (shown played ++ [MenuPrompt], AwaitingMenu st')
          | Some (PlayAgain, rest') =>
              let (later, e) := run_loop bound' (S round) st' rest' in
              (shown played ++ [MenuPrompt] ++ later, e)
          | Some (Leave, rest') =>
              let (printed, e) := leave_with_stats st' rest' in
              (shown played ++ [MenuPrompt; Shown ClearScreen] ++ printed, e)
          end
      end
  end.

(** [run]: every round but the one that ends the session is followed by a
    key read in the menu, so a session makes at most one round more than
    there are keys. *)
Definition run (st : stats) (keys : list ascii) : list screen * session_end :=
  run_loop (S (List.length keys)) O st keys.

End SessionController.

(** [main]: a game with the default arguments, its statistics at zero. *)
Definition main (targets : nat -> Z) (keys : list ascii)
  : list screen * session_end :=
  run default_config targets initial_stats keys.

(** ** Further auxiliary definitions *)

Fixpoint count_events {A : Type} (p : A -> bool) (out : list A) : nat :=
  match out with
  | [] => O
  | e :: out' => (if p e then 1 else 0) + count_events p out'
  end.

Definition is_hint (e : event) : bool :=
  match e with Hint _ => true | _ => false end.

Definition is_new_game (e : screen) : bool :=
  match e with Shown (NewGame _ _ _) => true | _ => false end.

Definition is_stats_header (e : screen) : bool :=
  match e with Shown StatsHeader => true | _ => false end.

(** A digit that is not a decimal: the superscripts one, two and three. *)
Definition superscript (ch : ascii) : bool :=
  Py.isdigit_char ch && negb (Py.isdecimal_char ch).

(** [s[:n]]: the first [n] characters of [s]. *)
Definition first_chars (n : Z) (s : string) : string :=
  String.substring 0 (Z.to_nat n) s.

(** The key on which [get_guess] returns. *)
Definition returning_key (v : guess_value) (ch : ascii) : Prop :=
  match v with
  | Quit => ch = "x"%char \/ ch = "X"%char
  | Num _ => ch = carriage_return
  end.

(** The events of the guessing loop: neither the banner of a new game nor
    a line of the statistics. *)
Definition loop_event (e : event) : Prop :=
  match e with
  | NewGame _ _ _ | StatsHeader | GamesPlayed _ | GamesWon _ | WinRate _
  | Goodbye => False
  | _ => True
  end.

(** A key the menu loop of [run] reacts to: space, 'q' or 'Q'. *)
Definition menu_key (key : ascii) : bool :=
  Ascii.eqb key " " || Ascii.eqb (Py.lower key) "q".

(** Keys of a session of two rounds: three guesses, space, one guess,
    then 'q'. *)
Definition two_rounds : list ascii :=
  typed "9" ++ typed "8" ++ typed "7" ++ [" "%char] ++ typed "7" ++ ["q"%char].

(** Their targets: 4 in the first round, 7 afterwards. *)
Definition two_targets (round : nat) : Z :=
  match round with O => 4 | _ => 7 end.

(** A terminal on which the library call [q] raises [e] and the others
    succeed. *)
Definition failing (q : Tty.prim) (e : Py.exn) : Tty.prim -> option Py.exn :=
  fun p =>
    match q, p with
    | Tty.PFileno, Tty.PFileno
    | Tty.PTcgetattr, Tty.PTcgetattr
    | Tty.PSetraw, Tty.PSetraw
    | Tty.PRead, Tty.PRead
    | Tty.PTcsetattr, Tty.PTcsetattr => Some e
    | _, _ => None
    end.

(** ** Tactics *)

(** Finds an element in an explicit list. *)
Ltac find_in := solve [repeat first [left; reflexivity | right]].

(** Unfolds the body of the loop and splits on each of its tests. *)
Ltac on_key_cases :=
  unfold on_key;
  repeat match goal with
    | |- context [if ?b then _ else _] => destruct b eqn:?
    | |- context [match Py.int ?s with _ => _ end] => destruct (Py.int s) eqn:?
    end.

(** Unfolds [get_key] down to the library calls. *)
Ltac get_key_unfold :=
  unfold Tty.get_key, Tty.bind, Tty.try_finally, Tty.fileno, Tty.tcgetattr,
    Tty.tcsetattr, Tty.setraw, Tty.read1, Tty.library_call, Tty.ret, Tty.record,
    Tty.set_attrs, Tty.set_stdin.

(** Runs [get_key] on a terminal whose failing calls are given by [f],
    splitting on the calls whose outcome is not known. *)
Ltac get_key_run f :=
  repeat (cbn [Tty.attrs Tty.stdin_fd Tty.stdin Tty.faults Tty.calls fst snd];
          first [ match goal with
                  | H : f ?p = _ |- context [f ?p] => rewrite H
                  end
                | match goal with
                  | |- context [f ?p] => destruct (f p) eqn:?
                  end ]);
  cbn [Tty.attrs Tty.stdin_fd Tty.stdin Tty.faults Tty.calls fst snd].

(** * Properties *)

(** ** Runs of the program *)

Example get_guess_7 :
  get_guess default_config ["7"; carriage_return; "x"]%char
  = ([Prompt ""; Prompt "7"; Newline], Done (Num 7) ["x"%char]).
Proof. reflexivity. Qed.

Example get_guess_15 :
  get_guess default_config ["1"; "5"; carriage_return]%char
  = ([Prompt ""; Prompt "1"; Prompt "15"; Newline; RangeError 1 10; Prompt ""],
     Waiting "").
Proof. reflexivity. Qed.

Example get_guess_superscript :
  get_guess default_config ["178"; carriage_return]%char
  = ([Prompt ""; Prompt (String "178" ""); Newline], Failed Py.ValueError).
Proof. reflexivity. Qed.

(** The scenarios of the specification, range 1-10 and 3 attempts. *)
Example round_secret_7 :
  snd (play_round default_config 7 initial_stats (typed "3" ++ typed "9" ++ typed "7"))
  = Done (RoundContinue, Stats 1 1) [].
Proof. reflexivity. Qed.

Example round_secret_4 :
  snd (play_round default_config 4 initial_stats (typed "9" ++ typed "8" ++ typed "7"))
  = Done (RoundContinue, Stats 1 0) [].
Proof. reflexivity. Qed.

Example round_quit_at_once :
  play_round default_config 5 initial_stats ["x"%char]
  = ([ClearScreen; NewGame 1 10 3; AttemptsRemaining 3; Prompt ""; Interrupted],
     Done (RoundQuit, Stats 1 0) []).
Proof. reflexivity. Qed.

Example round_secret_7_trace :
  fst (play_round default_config 7 initial_stats (typed "3" ++ typed "9" ++ typed "7"))
  = [ClearScreen; NewGame 1 10 3;
     AttemptsRemaining 3; Prompt ""; Prompt "3"; Newline;
     Newline; Beep A4; Hint Low; Newline;
     AttemptsRemaining 2; Prompt ""; Prompt "9"; Newline;
     Newline; Beep Bb4; Hint High; Newline;
     AttemptsRemaining 1; Prompt ""; Prompt "7"; Newline;
     ClearScreen; Beep C5; Beep E5; Beep G5; Congratulations 7].
Proof. reflexivity. Qed.

Example get_key_reads_7 :
  Tty.get_key (fun _ => Tty.Raw) (Tty.console Tty.no_fault)
  = (Tty.Ok "7"%string,
     Tty.World Tty.Cooked 0 ["013"%char] Tty.no_fault
       [Tty.Fileno; Tty.Tcgetattr 0; Tty.Fileno; Tty.Setraw 0; Tty.Read 1;
        Tty.Tcsetattr 0 Tty.TCSADRAIN Tty.Cooked]).
Proof. reflexivity. Qed.

Example get_key_interrupted :
  Tty.get_key (fun _ => Tty.Raw) (Tty.console Tty.read_interrupted)
  = (Tty.Err Py.KeyboardInterrupt,
     Tty.World Tty.Cooked 0 ["7"%char; "013"%char] Tty.read_interrupted
       [Tty.Fileno; Tty.Tcgetattr 0; Tty.Fileno; Tty.Setraw 0; Tty.Read 1;
        Tty.Tcsetattr 0 Tty.TCSADRAIN Tty.Cooked]).
Proof. reflexivity. Qed.


(** ** Characters *)

Lemma lower_is_x (ch : ascii) :
  Py.lower ch = "x"%char <-> ch = "x"%char \/ ch = "X"%char.
Proof.
  split.
  - destruct ch as [[] [] [] [] [] [] [] []]; vm_compute; intros H;
      first [ discriminate H | now left | now right ].
  - intros [-> | ->]; reflexivity.
Qed.

(** A digit is none of the keys with a meaning of their own. *)
Lemma digit_is_plain (ch : ascii) :
  Py.isdigit_char ch = true ->
  Ascii.eqb (Py.lower ch) "x" = false /\
  Ascii.eqb ch delete = false /\
  Ascii.eqb ch backspace = false /\
  Ascii.eqb ch carriage_return = false.
Proof.
  destruct ch as [[] [] [] [] [] [] [] []]; vm_compute; intros H;
    first [ discriminate H | repeat split ].
Qed.

(** ** Strings *)

Lemma len_nonneg (s : string) : 0 <= Py.len s.
Proof. unfold Py.len. lia. Qed.

Lemma len_push (s : string) (ch : ascii) : Py.len (Py.push s ch) = Py.len s + 1.
Proof.
  unfold Py.len, Py.push. induction s as [|c s IH]; simpl in *; lia.
Qed.

Lemma len_drop_last (s : string) : Py.len (Py.drop_last s) <= Py.len s.
Proof.
  unfold Py.len. induction s as [|c s IH]; simpl; [lia|].
  destruct s as [|c' s']; simpl in *; lia.
Qed.

Lemma forallb_push (p : ascii -> bool) (s : string) (ch : ascii) :
  Py.forallb_string p (Py.push s ch) = Py.forallb_string p s && p ch.
Proof.
  unfold Py.push. induction s as [|c s IH]; simpl.
  - now rewrite andb_true_r.
  - now rewrite IH, andb_assoc.
Qed.

Lemma forallb_drop_last (p : ascii -> bool) (s : string) :
  Py.forallb_string p s = true -> Py.forallb_string p (Py.drop_last s) = true.
Proof.
  induction s as [|c s IH]; simpl; [easy|].
  intros [Hc Hs]%andb_prop. destruct s as [|c' s']; [easy|].
  change (p c && Py.forallb_string p (Py.drop_last (String c' s')) = true).
  now rewrite Hc, IH.
Qed.

Lemma isdigit_all (s : string) :
  Py.isdigit s = Py.truthy s && Py.forallb_string Py.isdigit_char s.
Proof. destruct s; reflexivity. Qed.

(** ** The guess editor *)

Lemma on_key_accepts_in_range (self : config) (guess : string) (ch : ascii)
    (printed : list event) (n : Z) :
  on_key self guess ch = (printed, Returns (Num n)) ->
  min_num self <= n <= max_num self.
Proof.
  on_key_cases; intros H; inversion H; subst.
  match goal with
  | Hr : negb _ = false |- _ =>
      apply negb_false_iff, andb_prop in Hr; destruct Hr; lia
  end.
Qed.

Lemma edit_accepts_in_range (self : config) (keys : list ascii) :
  forall (guess : string) (out : list event) (n : Z) (rest : list ascii),
    edit self guess keys = (out, Done (Num n) rest) ->
    min_num self <= n <= max_num self.
Proof.
  induction keys as [|ch keys IH]; intros guess out n rest; simpl.
  - discriminate.
  - destruct (on_key self guess ch) as [printed next] eqn:Hk.
    destruct next as [guess' | v | e].
    + destruct (edit self guess' keys) as [later r] eqn:He.
      intros H; inversion H; subst. eapply IH; eassumption.
    + intros H; inversion H; subst.
      eapply on_key_accepts_in_range; eassumption.
    + discriminate.
Qed.

(** C1. Whatever the configuration and the keystrokes, a number that
    [get_guess] returns lies between [min_num] and [max_num] inclusive. The
    property does not need [min_num < max_num]; it holds a fortiori for the
    configurations that satisfy it. *)
Theorem get_guess_in_range (self : config) (keys : list ascii)
    (out : list event) (n : Z) (rest : list ascii) :
  get_guess self keys = (out, Done (Num n) rest) ->
  min_num self <= n <= max_num self.
Proof. apply edit_accepts_in_range. Qed.

Lemma get_guess_in_range_witness :
  get_guess default_config (typed "10")
    = ([Prompt ""; Prompt "1"; Prompt "10"; Newline], Done (Num 10) [])
  /\ 1 <= 10 <= 10.
Proof.
  split; [reflexivity|].
  exact (get_guess_in_range default_config (typed "10") _ 10 [] eq_refl).
Defined.

(** C7. At every buffer, empty or not, the key 'x' or 'X' makes [get_guess]
    print the interruption notice and return the quit value at once: the
    buffer is dropped and the keys after it are left unread. The test on
    the quit key is the first of the loop body, so no other rule is tried. *)
Theorem quit_at_any_buffer (self : config) (guess : string) (ch : ascii)
    (rest : list ascii) :
  ch = "x"%char \/ ch = "X"%char ->
  on_key self guess ch = ([Interrupted], Returns Quit) /\
  edit self guess (ch :: rest) = ([Prompt guess; Interrupted], Done Quit rest).
Proof.
  intros Hx. apply lower_is_x in Hx.
  assert (Hk : on_key self guess ch = ([Interrupted], Returns Quit)).
  { unfold on_key. now rewrite Hx. }
  split; [exact Hk|]. simpl. now rewrite Hk.
Qed.

Lemma quit_at_any_buffer_witness :
  on_key default_config "1" "X" = ([Interrupted], Returns Quit) /\
  edit default_config "1" ["X"; "0"; carriage_return]%char
    = ([Prompt "1"; Interrupted], Done Quit ["0"; carriage_return]%char).
Proof.
  exact (quit_at_any_buffer default_config "1" "X" ["0"; carriage_return]%char
           (or_intror eq_refl)).
Defined.

(** The quit key is recognised after any keys that left the editor in its
    loop. *)
Lemma quit_after_any_keys (self : config) (keys : list ascii) :
  forall (guess buffer : string) (out : list event) (rest : list ascii),
    edit self guess keys = (out, Waiting buffer) ->
    snd (edit self guess (keys ++ "x"%char :: rest)) = Done Quit rest.
Proof.
  induction keys as [|ch keys IH]; intros guess buffer out rest.
  - intros _. reflexivity.
  - simpl. destruct (on_key self guess ch) as [printed next].
    destruct next as [guess' | v | e]; try discriminate.
    destruct (edit self guess' keys) as [later r] eqn:He.
    intros H; inversion H; subst.
    specialize (IH guess' buffer later rest He).
    destruct (edit self guess' (keys ++ "x"%char :: rest)). exact IH.
Qed.

(** C9. Enter on the empty buffer prints the line break and nothing else,
    and leaves the editor in its loop with the buffer still empty; pressed
    any number of times before other keys, it does not change what those
    keys lead to. Backspace and delete on the empty buffer print nothing
    and leave the empty buffer. *)
Theorem empty_submit_and_backspace_noop (self : config) :
  on_key self "" carriage_return = ([Newline], Editing "") /\
  on_key self "" backspace = ([], Editing "") /\
  on_key self "" delete = ([], Editing "") /\
  forall (n : nat) (keys : list ascii),
    get_guess self (repeat carriage_return n ++ keys)
    = (repeat_events n [Prompt ""; Newline] ++ fst (get_guess self keys),
       snd (get_guess self keys)).
Proof.
  repeat split.
  unfold get_guess. induction n as [|n IH]; intros keys.
  - simpl. now destruct (edit self "" keys).
  - change (repeat carriage_return (S n) ++ keys)
      with (carriage_return :: (repeat carriage_return n ++ keys)).
    cbn [edit].
    change (on_key self "" carriage_return) with ([Newline], Editing "").
    cbv iota beta. rewrite IH. reflexivity.
Qed.

(** No key makes a digit-free buffer out of a buffer of digits. *)
Lemma on_key_keeps_digits (self : config) (guess : string) (ch : ascii)
    (printed : list event) (guess' : string) :
  Py.forallb_string Py.isdigit_char guess = true ->
  on_key self guess ch = (printed, Editing guess') ->
  Py.forallb_string Py.isdigit_char guess' = true /\ ~ In ValidationError printed.
Proof.
  intros Hd. unfold on_key. rewrite isdigit_all.
  on_key_cases; intros H; inversion H; subst; simpl;
    try (split; [first [ assumption | reflexivity | now apply forallb_drop_last ]
                | intuition discriminate ]).
  - (* the branch of the validation message needs a non-digit in the buffer *)
    rewrite Hd in *. destruct (Py.truthy guess); discriminate.
  - rewrite forallb_push, Hd. simpl.
    match goal with Hc : _ && _ = true |- _ => apply andb_prop in Hc; tauto end.
Qed.

(** The message "Please enter a valid number!" is never printed: only digits
    enter the buffer, so the test of line 76 cannot succeed. *)
Lemma validation_error_unreachable (self : config) (keys : list ascii) :
  forall guess : string,
    Py.forallb_string Py.isdigit_char guess = true ->
    ~ In ValidationError (fst (edit self guess keys)).
Proof.
  induction keys as [|ch keys IH]; intros guess Hd; simpl.
  - intuition discriminate.
  - destruct (on_key self guess ch) as [printed next] eqn:Hk.
    destruct next as [guess' | v | e].
    + destruct (on_key_keeps_digits _ _ _ _ _ Hd Hk) as [Hd' Hp].
      specialize (IH guess' Hd').
      destruct (edit self guess' keys) as [later r]. simpl in *.
      rewrite in_app_iff. intuition discriminate.
    + simpl. revert Hk. unfold on_key. rewrite isdigit_all.
      on_key_cases; intros H; inversion H; subst; simpl; intuition discriminate.
    + simpl. revert Hk. unfold on_key. rewrite isdigit_all.
      on_key_cases; intros H; inversion H; subst; simpl; intuition discriminate.
Qed.

(** C2, as stated, fails: after 'a', 'b', 'c' and Enter no validation
    message has been printed. *)
Lemma abc_submit_no_validation_error :
  ~ In ValidationError
      (fst (get_guess default_config ["a"; "b"; "c"; carriage_return]%char)).
Proof. vm_compute. intuition discriminate. Qed.

(** C2, amended. From the empty buffer the keys 'a', 'b', 'c' are ignored,
    so Enter finds the buffer empty: the prompt is shown again each time,
    Enter prints a line break, no validation message is printed, and the
    editor is left in its loop with the empty buffer. *)
Theorem abc_submit_ignored (self : config) :
  get_guess self ["a"; "b"; "c"; carriage_return]%char
  = ([Prompt ""; Prompt ""; Prompt ""; Prompt ""; Newline; Prompt ""],
     Waiting "").
Proof. reflexivity. Qed.

(** ** The cap on the buffer *)

Example digit_count_10 : decimal_digit_count 10 = 2.
Proof. reflexivity. Qed.

Example digit_count_minus_1 :
  decimal_digit_count (-1) = 1 /\ Py.len (Py.str (-1)) = 2.
Proof. split; reflexivity. Qed.

Lemma count_all_digits_empty (d : Decimal.uint) :
  count_string Py.isdecimal_char (NilEmpty.string_of_uint d)
  = String.length (NilEmpty.string_of_uint d).
Proof. induction d; simpl; congruence. Qed.

Lemma count_all_digits (d : Decimal.uint) :
  count_string Py.isdecimal_char (NilZero.string_of_uint d)
  = String.length (NilZero.string_of_uint d).
Proof.
  destruct d; try reflexivity;
    unfold NilZero.string_of_uint; apply count_all_digits_empty.
Qed.

(** [len(str(n))] counts the digits of [n], and its sign when it has one. *)
Lemma len_str (n : Z) :
  Py.len (Py.str n) = decimal_digit_count n + (if n <? 0 then 1 else 0).
Proof.
  unfold decimal_digit_count, Py.len, Py.str.
  destruct n as [|p|p]; [reflexivity| |].
  - change (Z.pos p <? 0) with false.
    cbn [Z.to_int NilZero.string_of_int]. rewrite count_all_digits. lia.
  - change (Z.neg p <? 0) with true.
    cbn [Z.to_int NilZero.string_of_int].
    cbn [count_string String.length]. rewrite count_all_digits.
    change (Py.isdecimal_char "-") with false. cbv iota. lia.
Qed.

Section BufferCap.

Variable self : config.

(** A key pressed at a buffer within the cap leaves a buffer within it. *)
Lemma on_key_within_cap (guess : string) (ch : ascii)
    (printed : list event) (guess' : string) :
  Py.len guess <= Py.len (Py.str (max_num self)) ->
  on_key self guess ch = (printed, Editing guess') ->
  Py.len guess' <= Py.len (Py.str (max_num self)).
Proof.
  intros Hle. pose proof (len_drop_last guess) as Hdrop.
  pose proof (len_nonneg (Py.str (max_num self))) as Hcap.
  on_key_cases; intros H; inversion H; subst;
    try assumption; try exact Hcap; try lia.
  rewrite len_push.
  match goal with
  | Hc : _ && (_ <? _) = true |- _ =>
      apply andb_prop in Hc; destruct Hc as [_ Hlt]; apply Z.ltb_lt in Hlt
  end.
  lia.
Qed.

(** Every buffer the loop shows, from a start within the cap, is within it. *)
Lemma edit_within_cap (keys : list ascii) :
  forall guess shown : string,
    Py.len guess <= Py.len (Py.str (max_num self)) ->
    In (Prompt shown) (fst (edit self guess keys)) ->
    Py.len shown <= Py.len (Py.str (max_num self)).
Proof.
  induction keys as [|ch keys IH]; intros guess shown Hle; simpl.
  - intros [H | []]. now inversion H; subst.
  - destruct (on_key self guess ch) as [printed next] eqn:Hk.
    assert (Hprinted : ~ In (Prompt shown) printed).
    { revert Hk. on_key_cases; intros H; inversion H; subst; simpl;
        intuition discriminate. }
    destruct next as [guess' | v | e].
    + pose proof (on_key_within_cap _ _ _ _ Hle Hk) as Hle'.
      specialize (IH guess' shown Hle').
      destruct (edit self guess' keys) as [later r]. simpl in *.
      rewrite in_app_iff. intros [H | [H | H]]; [ | contradiction | auto ].
      now inversion H; subst.
    + simpl. intros [H | H]; [ | contradiction ]. now inversion H; subst.
    + simpl. intros [H | H]; [ | contradiction ]. now inversion H; subst.
Qed.

(** What a digit key does, at any buffer. *)
Lemma on_key_digit (guess : string) (ch : ascii) :
  Py.isdigit_char ch = true ->
  on_key self guess ch
  = ([], Editing (if Py.len guess <? Py.len (Py.str (max_num self))
                  then Py.push guess ch else guess)).
Proof.
  intros Hd. destruct (digit_is_plain ch Hd) as (Hx & Hdel & Hbs & Hcr).
  unfold on_key. rewrite Hx, Hdel, Hbs, Hcr, Hd. simpl.
  now destruct (Py.len guess <? Py.len (Py.str (max_num self))).
Qed.

End BufferCap.

(** C8, as stated, fails when [max_num] is negative: with the range -10..-1
    the digit count of [max_num] is 1, yet the key '2' is appended to the
    buffer "1", and the loop shows a buffer of length 2. *)
Lemma buffer_exceeds_digit_count :
  let self := Config (-10) (-1) 3 in
  decimal_digit_count (max_num self) = 1 /\
  on_key self "1" "2" = ([], Editing "12") /\
  get_guess self ["1"; "2"]%char
    = ([Prompt ""; Prompt "1"; Prompt "12"], Waiting "12") /\
  ~ Py.len "12" <= decimal_digit_count (max_num self).
Proof.
  cbv zeta. repeat split.
  change (~ 2 <= 1). lia.
Qed.

(** C8, amended. The cap is [len(str(max_num))]: every buffer the loop of
    [get_guess] shows is at most that long; a digit key is appended exactly
    when the buffer is strictly shorter, and leaves it unchanged otherwise.
    The cap is the decimal digit count of [max_num] when [max_num] is not
    negative, and one more than it (the sign) when it is. *)
Theorem buffer_length_capped (self : config) :
  (forall (keys : list ascii) (shown : string),
      In (Prompt shown) (fst (get_guess self keys)) ->
      Py.len shown <= Py.len (Py.str (max_num self))) /\
  (forall (guess : string) (ch : ascii),
      Py.isdigit_char ch = true ->
      on_key self guess ch
      = ([], Editing (if Py.len guess <? Py.len (Py.str (max_num self))
                      then Py.push guess ch else guess))) /\
  (0 <= max_num self ->
   Py.len (Py.str (max_num self)) = decimal_digit_count (max_num self)) /\
  (max_num self < 0 ->
   Py.len (Py.str (max_num self)) = decimal_digit_count (max_num self) + 1).
Proof.
  repeat split.
  - intros keys shown. apply edit_within_cap.
    pose proof (len_nonneg (Py.str (max_num self))). exact H.
  - apply on_key_digit.
  - intros H. rewrite len_str.
    destruct (Z.ltb_spec (max_num self) 0); lia.
  - intros H. rewrite len_str.
    destruct (Z.ltb_spec (max_num self) 0); lia.
Qed.

Lemma buffer_length_capped_witness :
  Py.len "10" <= Py.len (Py.str 10) /\
  on_key default_config "10" "5" = ([], Editing "10") /\
  on_key default_config "1" "0" = ([], Editing "10") /\
  Py.len (Py.str 10) = decimal_digit_count 10.
Proof.
  destruct (buffer_length_capped default_config) as (Hshown & Hdigit & Hpos & _).
  split; [| split; [| split]].
  - apply (Hshown ["1"; "0"; "5"]%char "10"). vm_compute. right. right. now left.
  - exact (Hdigit "10" "5"%char eq_refl).
  - exact (Hdigit "1" "0"%char eq_refl).
  - apply Hpos. vm_compute. discriminate.
Defined.

(** ** The round *)

Lemma on_key_events (self : config) (guess : string) (ch : ascii) :
  Forall editor_event (fst (on_key self guess ch)).
Proof. on_key_cases; simpl; repeat constructor. Qed.

Lemma edit_events (self : config) (keys : list ascii) :
  forall guess : string, Forall editor_event (fst (edit self guess keys)).
Proof.
  induction keys as [|ch keys IH]; intros guess; simpl.
  - repeat constructor.
  - pose proof (on_key_events self guess ch) as Hk.
    destruct (on_key self guess ch) as [printed next]. simpl in Hk.
    destruct next as [guess' | v | e].
    + specialize (IH guess'). destruct (edit self guess' keys) as [later r].
      simpl in *. constructor; [exact I|]. apply Forall_app. now split.
    + simpl. constructor; [exact I | exact Hk].
    + simpl. constructor; [exact I | exact Hk].
Qed.

Lemma get_guess_no_round_event (self : config) (keys : list ascii) (e : event) :
  ~ editor_event e -> ~ In e (fst (get_guess self keys)).
Proof.
  intros Hne Hin. apply Hne.
  pose proof (edit_events self keys "") as Hall.
  rewrite Forall_forall in Hall. now apply Hall.
Qed.

(** The interruption notice is printed by the pass that returns 'quit', and
    by no other. *)
Lemma on_key_interrupted (self : config) (guess : string) (ch : ascii) :
  In Interrupted (fst (on_key self guess ch)) <->
  snd (on_key self guess ch) = Returns Quit.
Proof.
  on_key_cases; simpl; split; intros H;
    first [ now left | discriminate H | intuition discriminate ].
Qed.

Lemma edit_interrupted (self : config) (keys : list ascii) :
  forall guess : string,
    In Interrupted (fst (edit self guess keys)) <->
    exists rest, snd (edit self guess keys) = Done Quit rest.
Proof.
  induction keys as [|ch keys IH]; intros guess; simpl.
  - split; [intuition discriminate | intros [rest H]; discriminate H].
  - pose proof (on_key_interrupted self guess ch) as Hk.
    destruct (on_key self guess ch) as [printed next]. simpl in Hk.
    destruct next as [guess' | v | e].
    + specialize (IH guess'). destruct (edit self guess' keys) as [later r].
      simpl in *. rewrite in_app_iff, <- IH.
      split; [intros [H | [H | H]] | intros H]; auto; try discriminate H.
      apply Hk in H. discriminate H.
    + simpl. split.
      * intros [H | H]; [discriminate H|]. apply Hk in H.
        inversion H; subst. now exists keys.
      * intros [rest H]. inversion H; subst. right. now apply Hk.
    + simpl. split.
      * intros [H | H]; [discriminate H|]. apply Hk in H. discriminate H.
      * intros [rest H]. discriminate H.
Qed.

Lemma edit_not_unfinished (self : config) (keys : list ascii) :
  forall guess : string, snd (edit self guess keys) <> Unfinished.
Proof.
  induction keys as [|ch keys IH]; intros guess; simpl; [discriminate|].
  destruct (on_key self guess ch) as [printed next].
  destruct next as [guess' | v | e]; simpl; try discriminate.
  specialize (IH guess'). now destruct (edit self guess' keys).
Qed.

Section RoundFacts.

Variable self : config.
Variable target : Z.

Lemma wrong_guess_feedback_events (guess : Z) :
  wrong_guess_feedback target guess
  = [Newline; Beep (if guess <? target then A4 else Bb4);
     Hint (if guess <? target then Low else High); Newline].
Proof. unfold wrong_guess_feedback. now destruct (guess <? target). Qed.

(** The bound [play_round] gives to the loop is never reached. *)
Lemma play_loop_within_bound (bound : nat) :
  forall (attempts : Z) (st : stats) (keys : list ascii),
    (Z.to_nat attempts <= bound)%nat ->
    snd (play_loop self target bound attempts st keys) <> Unfinished.
Proof.
  induction bound as [|bound IH]; intros attempts st keys Hb; simpl.
  - destruct (Z.gtb_spec attempts 0); [lia | discriminate].
  - destruct (Z.gtb_spec attempts 0); [| discriminate].
    pose proof (edit_not_unfinished self keys "") as Hg. unfold get_guess.
    destruct (edit self "" keys) as [typed r]. simpl in Hg.
    destruct r as [[|guess] rest | e | buffer |]; simpl; try discriminate;
      try contradiction.
    destruct (guess =? target); simpl; [discriminate|].
    assert (Hb' : (Z.to_nat (attempts - 1) <= bound)%nat) by lia.
    specialize (IH (attempts - 1) st rest Hb').
    now destruct (play_loop self target bound (attempts - 1) st rest).
Qed.

Lemma play_round_within_bound (st : stats) (keys : list ascii) :
  snd (play_round self target st keys) <> Unfinished.
Proof.
  unfold play_round, guessing_loop.
  pose proof (play_loop_within_bound (Z.to_nat (max_attempts self))
                (max_attempts self) st keys (Nat.le_refl _)) as H.
  now destruct (play_loop self target (Z.to_nat (max_attempts self))
                  (max_attempts self) st keys).
Qed.

End RoundFacts.

Section RoundEndings.

Variable self : config.
Variable target : Z.

Lemma play_loop_done (bound : nat) :
  forall (attempts : Z) (st : stats) (keys : list ascii) (out : list event)
         (v : round_value) (st' : stats) (rest : list ascii),
    play_loop self target bound attempts st keys = (out, Done (v, st') rest) ->
    games st' = games st + 1 /\
    (ends_by_quit target attempts st out v st' \/
     ends_by_win target attempts st out v st' \/
     ends_exhausted target attempts st out v st').
Proof.
  induction bound as [|bound IH]; intros attempts st keys out v st' rest;
    cbn [play_loop].
  - destruct (Z.gtb_spec attempts 0) as [Hpos | Hnpos]; [discriminate|].
    intros Hrun; inversion Hrun; subst. split; [reflexivity|].
    right; right. unfold ends_exhausted. simpl. intuition.
  - destruct (Z.gtb_spec attempts 0) as [Hpos | Hnpos].
    2:{ intros Hrun; inversion Hrun; subst. split; [reflexivity|].
        right; right. unfold ends_exhausted. simpl. intuition. }
    pose proof (get_guess_no_round_event self keys (Congratulations target))
      as Hcongr.
    pose proof (get_guess_no_round_event self keys (GameOver target)) as Hover.
    pose proof (edit_interrupted self keys "") as Hint.
    unfold get_guess in *.
    destruct (edit self "" keys) as [typed r]. simpl in Hcongr, Hover, Hint.
    assert (Hc : ~ In (Congratulations target) typed) by (apply Hcongr; exact id).
    assert (Ho : ~ In (GameOver target) typed) by (apply Hover; exact id).
    clear Hcongr Hover.
    destruct r as [[|guess] rest0 | e | buffer |]; try discriminate.
    + (* 'quit' *)
      intros Hrun; inversion Hrun; subst. split; [reflexivity|]. left.
      unfold ends_by_quit. simpl. repeat split.
      * right. apply Hint. now exists rest.
      * intros [H1 | H1]; [discriminate H1 | auto].
      * intros [H1 | H1]; [discriminate H1 | auto].
    + assert (Hq : ~ In Interrupted typed).
      { intros Hin. apply Hint in Hin. destruct Hin as [r Hr]. discriminate Hr. }
      destruct (guess =? target) eqn:Hguess.
      * (* the right guess *)
        intros Hrun; inversion Hrun; subst. split; [reflexivity|]. right; left.
        unfold ends_by_win, win_feedback. simpl. repeat split.
        -- right. rewrite in_app_iff. right. simpl. tauto.
        -- rewrite in_app_iff. simpl. intuition discriminate.
        -- rewrite in_app_iff. simpl. intuition discriminate.
      * (* a wrong guess *)
        rewrite wrong_guess_feedback_events.
        destruct (play_loop self target bound (attempts - 1) st rest0)
          as [later r'] eqn:Hloop.
        intros Hrun; inversion Hrun; subst. clear Hrun.
        destruct (IH _ _ _ _ _ _ _ Hloop) as [Hgames Hend].
        split; [exact Hgames|].
        destruct (Z.eqb_spec (attempts - 1) 0) as [Hzero | Hleft].
        -- (* no attempt left: the loop stops here *)
           destruct bound; simpl in Hloop;
             (destruct (Z.gtb_spec (attempts - 1) 0); [lia|]);
             inversion Hloop; subst; right; right;
             unfold ends_exhausted, lose_feedback; simpl; repeat split;
             try (rewrite !in_app_iff; simpl; intuition discriminate).
        -- destruct Hend as [Hend | [Hend | Hend]];
             [ left; unfold ends_by_quit in *
             | right; left; unfold ends_by_win in *
             | right; right; unfold ends_exhausted in * ];
             simpl; rewrite !in_app_iff; simpl;
             intuition (try discriminate; try lia).
Qed.

End RoundEndings.

Lemma play_round_done (self : config) (target : Z) (st : stats)
    (keys : list ascii) (out : list event) (v : round_value) (st' : stats)
    (rest : list ascii) :
  play_round self target st keys = (out, Done (v, st') rest) ->
  games st' = games st + 1 /\
  (ends_by_quit target (max_attempts self) st out v st' \/
   ends_by_win target (max_attempts self) st out v st' \/
   ends_exhausted target (max_attempts self) st out v st').
Proof.
  unfold play_round, guessing_loop.
  destruct (play_loop self target (Z.to_nat (max_attempts self))
              (max_attempts self) st keys) as [later r] eqn:Hloop.
  intros Hrun; inversion Hrun; subst. clear Hrun.
  destruct (play_loop_done _ _ _ _ _ _ _ _ _ _ Hloop) as [Hgames Hend].
  split; [exact Hgames|].
  destruct Hend as [Hend | [Hend | Hend]];
    [ left; unfold ends_by_quit in *
    | right; left; unfold ends_by_win in *
    | right; right; unfold ends_exhausted in * ];
    simpl; intuition discriminate.
Qed.

(** C3, as stated, fails: a round won on the third guess and a round lost
    after three wrong guesses both return 'continue'. *)
Lemma win_and_exhaustion_same_value :
  let won := play_round default_config 7 initial_stats
               (typed "3" ++ typed "9" ++ typed "7") in
  let lost := play_round default_config 4 initial_stats
                (typed "9" ++ typed "8" ++ typed "7") in
  In (Congratulations 7) (fst won) /\
  In (GameOver 4) (fst lost) /\
  snd won = Done (RoundContinue, Stats 1 1) [] /\
  snd lost = Done (RoundContinue, Stats 1 0) [].
Proof.
  cbv zeta. repeat split.
  - vm_compute. find_in.
  - vm_compute. find_in.
Qed.

(** The loop of [play_round] yields the outcome the specification
    describes: it returns exactly when the guessing of the specification
    has an outcome, with the value and the counters of that outcome. *)
Lemma play_loop_refines (self : config) (target : Z) (bound : nat) :
  forall (attempts : Z) (st : stats) (keys : list ascii),
    (Z.to_nat attempts <= bound)%nat ->
    match spec_guessing self target (Z.to_nat attempts) keys with
    | Some (o, rest) =>
        snd (play_loop self target bound attempts st keys)
        = Done (outcome_value o, outcome_stats o st) rest
    | None =>
        forall x rest,
          snd (play_loop self target bound attempts st keys) <> Done x rest
    end.
Proof.
  induction bound as [|bound IH]; intros attempts st keys Hb;
    cbn [play_loop]; destruct (Z.gtb_spec attempts 0) as [Hpos | Hnpos];
    try lia;
    try (replace (Z.to_nat attempts) with O by lia; reflexivity).
  replace (Z.to_nat attempts) with (S (Z.to_nat (attempts - 1))) by lia.
  cbn [spec_guessing].
  destruct (get_guess self keys) as [shown r]. cbn [snd].
  destruct r as [[|guess] rest | e | buffer |]; cbn [snd];
    try reflexivity; try (intros x rest'; discriminate).
  destruct (guess =? target); [reflexivity|].
  specialize (IH (attempts - 1) st rest ltac:(lia)).
  destruct (play_loop self target bound (attempts - 1) st rest) as [later r'].
  exact IH.
Qed.

Lemma play_round_refines (self : config) (target : Z) (st : stats)
    (keys : list ascii) :
  match spec_round self target keys with
  | Some (o, rest) =>
      snd (play_round self target st keys)
      = Done (outcome_value o, outcome_stats o st) rest
  | None =>
      forall x rest, snd (play_round self target st keys) <> Done x rest
  end.
Proof.
  unfold spec_round, play_round, guessing_loop.
  pose proof (play_loop_refines self target (Z.to_nat (max_attempts self))
                (max_attempts self) st keys (Nat.le_refl _)) as H.
  destruct (play_loop self target (Z.to_nat (max_attempts self))
              (max_attempts self) st keys) as [later r].
  exact H.
Qed.

(** A round that returns has the outcome of the specification that its
    value and counters stand for. *)
Lemma play_round_outcome (self : config) (target : Z) (st : stats)
    (keys : list ascii) (out : list event) (v : round_value) (st' : stats)
    (rest : list ascii) :
  play_round self target st keys = (out, Done (v, st') rest) ->
  exists o,
    spec_round self target keys = Some (o, rest) /\
    v = outcome_value o /\ st' = outcome_stats o st /\
    (forall g, o = Win g -> g = target).
Proof.
  intros Hrun. pose proof (play_round_refines self target st keys) as Href.
  rewrite Hrun in Href. cbn [snd] in Href.
  destruct (spec_round self target keys) as [[o rest']|] eqn:Hspec.
  - inversion Href; subst. exists o. repeat split.
    intros g ->. clear Href Hrun. revert Hspec. unfold spec_round.
    generalize (Z.to_nat (max_attempts self)) as n. intros n. revert keys.
    induction n as [|n IH]; intros keys; cbn [spec_guessing]; [discriminate|].
    destruct (snd (get_guess self keys)) as [[|guess] rest0 | e | buffer |];
      try discriminate.
    destruct (Z.eqb_spec guess target) as [Heq | Hne].
    + intros H; inversion H; subst. reflexivity.
    + apply IH.
  - exfalso. eapply Href. reflexivity.
Qed.

(** C3, amended. [play_round] does not return the tagged outcome of the
    specification but one of two values. Whenever it returns, the round has
    one of the three outcomes: for [Quit] (the quit key was entered) it
    returns 'quit'; for [Win(guess)] (the accepted guess equals the secret)
    and for [Exhausted] (the attempts ran out without a win) alike it
    returns 'continue'. A won and an exhausted round differ only in what is
    printed (the congratulation, the game-over line) and in the win
    counter, which a win alone increases. Conversely, whenever the round of
    the specification has an outcome, [play_round] returns, with the value
    of that outcome. *)
Theorem play_round_returns_quit_or_continue (self : config) (target : Z)
    (st : stats) (keys : list ascii) :
  (forall (out : list event) (v : round_value) (st' : stats)
          (rest : list ascii),
      play_round self target st keys = (out, Done (v, st') rest) ->
      exists o,
        spec_round self target keys = Some (o, rest) /\
        match o with
        | Quitted =>
            v = RoundQuit /\ wins st' = wins st /\
            In Interrupted out /\ ~ In (Congratulations target) out
        | Win guess =>
            guess = target /\
            v = RoundContinue /\ wins st' = wins st + 1 /\
            In (Congratulations target) out /\ ~ In Interrupted out
        | Exhausted =>
            v = RoundContinue /\ wins st' = wins st /\
            ~ In (Congratulations target) out /\ ~ In Interrupted out /\
            (In (GameOver target) out \/ max_attempts self <= 0)
        end) /\
  (forall (o : round_outcome) (rest : list ascii),
      spec_round self target keys = Some (o, rest) ->
      exists (out : list event) (st' : stats),
        play_round self target st keys
        = (out, Done (match o with
                      | Quitted => RoundQuit
                      | Win _ | Exhausted => RoundContinue
                      end, st') rest)).
Proof.
  split.
  - intros out v st' rest Hrun.
    destruct (play_round_outcome _ _ _ _ _ _ _ _ Hrun)
      as (o & Hspec & Hv & Hst & Hwin).
    destruct (play_round_done _ _ _ _ _ _ _ _ Hrun) as [_ Hend].
    exists o. split; [exact Hspec|].
    assert (Hw : wins st' = wins st + match o with Win _ => 1 | _ => 0 end).
    { rewrite Hst. destruct o; cbn; lia. }
    unfold ends_by_quit, ends_by_win, ends_exhausted in Hend.
    destruct o as [guess | |]; cbn [outcome_value] in Hv;
      destruct Hend as [Hend | [Hend | Hend]];
      destruct Hend as (Hv' & Hw' & Hrest);
      try (rewrite Hv in Hv'; discriminate Hv'); try lia.
    + split; [now apply Hwin|]. repeat split; try tauto; lia.
    + repeat split; try tauto; lia.
    + repeat split; try tauto; lia.
  - intros o rest Hspec.
    pose proof (play_round_refines self target st keys) as Href.
    rewrite Hspec in Href.
    destruct (play_round self target st keys) as [out r]. cbn [snd] in Href.
    subst r. exists out, (outcome_stats o st). now destruct o.
Qed.

Lemma play_round_returns_quit_or_continue_witness :
  let keys := typed "3" ++ typed "9" ++ typed "7" in
  let out := fst (play_round default_config 7 initial_stats keys) in
  exists o,
    spec_round default_config 7 keys = Some (o, []) /\
    match o with
    | Quitted =>
        RoundContinue = RoundQuit /\ 1 = 0 /\
        In Interrupted out /\ ~ In (Congratulations 7) out
    | Win guess =>
        guess = 7 /\
        RoundContinue = RoundContinue /\ 1 = 0 + 1 /\
        In (Congratulations 7) out /\ ~ In Interrupted out
    | Exhausted =>
        RoundContinue = RoundContinue /\ 1 = 0 /\
        ~ In (Congratulations 7) out /\ ~ In Interrupted out /\
        (In (GameOver 7) out \/ 3 <= 0)
    end.
Proof.
  exact (proj1 (play_round_returns_quit_or_continue default_config 7
                  initial_stats (typed "3" ++ typed "9" ++ typed "7"))
           (fst (play_round default_config 7 initial_stats
                   (typed "3" ++ typed "9" ++ typed "7")))
           RoundContinue (Stats 1 1) [] eq_refl).
Defined.



(** The three outcomes on the scenarios of the specification. *)
Example spec_round_win :
  spec_round default_config 7 (typed "3" ++ typed "9" ++ typed "7")
  = Some (Win 7, []).
Proof. reflexivity. Qed.

Example spec_round_exhausted :
  spec_round default_config 4 (typed "9" ++ typed "8" ++ typed "7")
  = Some (Exhausted, []).
Proof. reflexivity. Qed.

Example spec_round_quit :
  spec_round default_config 5 ["x"%char] = Some (Quitted, []).
Proof. reflexivity. Qed.

(** C6. In a pass of the loop whose accepted guess [g] is not the target,
    the hint (tone and text) says "low" when [g < target] and "high"
    otherwise; the loop goes on with one attempt less; and when that leaves
    no attempt, the game-over feedback comes right after the hint and the
    loop stops there, the round returning 'continue'. *)
Theorem wrong_guess_hint_and_decrement (self : config) (target : Z)
    (attempts : Z) (st : stats) (keys : list ascii)
    (shown : list event) (g : Z) (rest : list ascii) :
  0 < attempts ->
  get_guess self keys = (shown, Done (Num g) rest) ->
  g <> target ->
  guessing_loop self target attempts st keys
  = (AttemptsRemaining attempts :: shown
       ++ ([Newline; Beep (if g <? target then A4 else Bb4);
            Hint (if g <? target then Low else High); Newline]
           ++ (if attempts - 1 =? 0
               then [ClearScreen; Beep G4; Beep F4; Beep E4; GameOver target]
               else []))
       ++ fst (guessing_loop self target (attempts - 1) st rest),
     snd (guessing_loop self target (attempts - 1) st rest))
  /\
  (attempts - 1 = 0 ->
   guessing_loop self target (attempts - 1) st rest
   = ([], Done (RoundContinue, add_game st) rest)).
Proof.
  intros Hpos Hguess Hwrong. unfold guessing_loop. split.
  - replace (Z.to_nat attempts) with (S (Z.to_nat (attempts - 1))) by lia.
    cbn [play_loop]. rewrite Hguess.
    destruct (Z.gtb_spec attempts 0); [|lia].
    destruct (Z.eqb_spec g target); [contradiction|].
    rewrite wrong_guess_feedback_events.
    destruct (play_loop self target (Z.to_nat (attempts - 1)) (attempts - 1)
                st rest).
    reflexivity.
  - intros Hzero. rewrite Hzero. reflexivity.
Qed.

Lemma wrong_guess_hint_and_decrement_witness :
  guessing_loop default_config 4 1 initial_stats (typed "7")
  = (AttemptsRemaining 1 :: [Prompt ""; Prompt "7"; Newline]
       ++ ([Newline; Beep Bb4; Hint High; Newline]
           ++ [ClearScreen; Beep G4; Beep F4; Beep E4; GameOver 4])
       ++ fst (guessing_loop default_config 4 (1 - 1) initial_stats []),
     snd (guessing_loop default_config 4 (1 - 1) initial_stats []))
  /\
  (1 - 1 = 0 ->
   guessing_loop default_config 4 (1 - 1) initial_stats []
   = ([], Done (RoundContinue, add_game initial_stats) [])).
Proof.
  refine (wrong_guess_hint_and_decrement default_config 4 1 initial_stats
            (typed "7") [Prompt ""; Prompt "7"; Newline] 7 [] _ eq_refl _).
  - lia.
  - discriminate.
Defined.

(** ** Statistics *)



(** ** The terminal mode *)

Section RawInputReaderFacts.

Variable termios : Type.
Variable cfmakeraw : termios -> termios.

(** The calls [get_key] adds to those already made, and what it leaves. *)
Lemma get_key_cases (w : Tty.world termios) :
  let restore := Tty.Tcsetattr (Tty.stdin_fd w) Tty.TCSADRAIN (Tty.attrs w) in
  exists made : list (Tty.call termios),
    Tty.calls (snd (Tty.get_key cfmakeraw w)) = Tty.calls w ++ made /\
    ((* the saved settings were never obtained: nothing was changed *)
     ((Tty.faults w Tty.PFileno <> None \/ Tty.faults w Tty.PTcgetattr <> None) /\
      Tty.attrs (snd (Tty.get_key cfmakeraw w)) = Tty.attrs w /\
      (forall fd, ~ In (Tty.Setraw fd) made) /\
      exists e, fst (Tty.get_key cfmakeraw w) = Tty.Err e)
     \/
     ((* the try block was entered: its last call is the restoring one *)
      Tty.faults w Tty.PFileno = None /\ Tty.faults w Tty.PTcgetattr = None /\
      (exists before, made = before ++ [restore]) /\
      match Tty.faults w Tty.PTcsetattr with
      | Some e => fst (Tty.get_key cfmakeraw w) = Tty.Err e
      | None =>
          Tty.attrs (snd (Tty.get_key cfmakeraw w)) = Tty.attrs w /\
          match Tty.faults w Tty.PSetraw, Tty.faults w Tty.PRead with
          | Some e, _ => fst (Tty.get_key cfmakeraw w) = Tty.Err e
          | None, Some e => fst (Tty.get_key cfmakeraw w) = Tty.Err e
          | None, None =>
              fst (Tty.get_key cfmakeraw w)
              = Tty.Ok (match Tty.stdin w with
                        | [] => EmptyString
                        | c :: _ => String c EmptyString
                        end)
          end
      end)).
Proof.
  destruct w as [mode fd input f made0].
  unfold Tty.get_key, Tty.bind, Tty.try_finally, Tty.fileno, Tty.tcgetattr,
    Tty.tcsetattr, Tty.setraw, Tty.read1, Tty.library_call, Tty.ret, Tty.record,
    Tty.set_attrs, Tty.set_stdin.
  destruct input as [|c input];
  repeat (cbn [Tty.attrs Tty.stdin_fd Tty.stdin Tty.faults Tty.calls fst snd];
          first [ match goal with
                  | H : f ?p = _ |- context [f ?p] => rewrite H
                  end
                | match goal with
                  | |- context [f ?p] => destruct (f p) eqn:?
                  end ]).
  all: cbn [Tty.attrs Tty.stdin_fd Tty.stdin Tty.faults Tty.calls fst snd];
    rewrite <- ?app_assoc; cbn [app];
    (eexists; split; [reflexivity|]).
  all: first
    [ solve [ left; repeat split;
              first [ solve [left; discriminate] | solve [right; discriminate]
                    | solve [eauto]
                    | intros fd' Hin; cbn [In] in Hin; intuition discriminate ] ]
    | right; (split; [reflexivity|]); (split; [reflexivity|]);
      split; [| first [reflexivity | split; reflexivity]];
      match goal with
      | |- exists before, ?l = _ =>
          exists (removelast l); cbn [removelast]; reflexivity
      end ].
Qed.

(** C5. However [get_key] ends, with the character read or with an
    exception: if the terminal was asked to go raw, the last call made on
    it is [tcsetattr(fd, TCSADRAIN, old_settings)] with the settings saved
    at entry, made before the result or the exception leaves [get_key];
    and, unless that restoring call itself raises, the terminal mode at
    exit is the mode at entry. When the calls around the read succeed, what
    leaves [get_key] is the character read or the exception of the read. *)
Theorem get_key_restores_mode (w : Tty.world termios) :
  exists made : list (Tty.call termios),
    Tty.calls (snd (Tty.get_key cfmakeraw w)) = Tty.calls w ++ made /\
    (forall fd,
        In (Tty.Setraw fd) made ->
        exists before,
          made = before
                 ++ [Tty.Tcsetattr (Tty.stdin_fd w) Tty.TCSADRAIN (Tty.attrs w)]) /\
    (Tty.faults w Tty.PTcsetattr = None ->
     Tty.attrs (snd (Tty.get_key cfmakeraw w)) = Tty.attrs w) /\
    (Tty.faults w Tty.PFileno = None ->
     Tty.faults w Tty.PTcgetattr = None ->
     Tty.faults w Tty.PSetraw = None ->
     Tty.faults w Tty.PTcsetattr = None ->
     fst (Tty.get_key cfmakeraw w)
     = match Tty.faults w Tty.PRead with
       | Some e => Tty.Err e
       | None => Tty.Ok (match Tty.stdin w with
                         | [] => EmptyString
                         | c :: _ => String c EmptyString
                         end)
       end).
Proof.
  destruct (get_key_cases w) as (made & Hcalls & Hcases).
  exists made. split; [exact Hcalls|].
  destruct Hcases as [(Hfault & Hattrs & Hnoraw & _)
                     | (Hfd & Hget & Hlast & Hexit)].
  - split; [| split].
    + intros fd Hin. now apply Hnoraw in Hin.
    + intros _. exact Hattrs.
    + intros H1 H2. destruct Hfault; contradiction.
  - split; [| split].
    + intros fd _. exact Hlast.
    + intros Hset. rewrite Hset in Hexit. apply Hexit.
    + intros _ _ Hraw Hset. rewrite Hset, Hraw in Hexit.
      destruct Hexit as [_ Hres].
      destruct (Tty.faults w Tty.PRead); exact Hres.
Qed.

End RawInputReaderFacts.

Lemma get_key_restores_mode_witness :
  let w := Tty.console Tty.read_interrupted in
  let w' := snd (Tty.get_key (fun _ => Tty.Raw) w) in
  Tty.calls w'
  = [Tty.Fileno; Tty.Tcgetattr 0; Tty.Fileno; Tty.Setraw 0; Tty.Read 1;
     Tty.Tcsetattr 0 Tty.TCSADRAIN Tty.Cooked] /\
  Tty.attrs w' = Tty.Cooked /\
  fst (Tty.get_key (fun _ => Tty.Raw) w) = Tty.Err Py.KeyboardInterrupt.
Proof.
  destruct (get_key_restores_mode Tty.mode (fun _ => Tty.Raw)
              (Tty.console Tty.read_interrupted))
    as (made & Hcalls & Hlast & Hattrs & Hres).
  split; [reflexivity|]. split.
  - apply Hattrs. reflexivity.
  - apply Hres; reflexivity.
Defined.

(** * Further properties of the code *)

(** ** The guess editor: what the buffer holds *)

Lemma edit_shows_digits (self : config) (keys : list ascii) :
  forall guess shown : string,
    Py.forallb_string Py.isdigit_char guess = true ->
    In (Prompt shown) (fst (edit self guess keys)) ->
    Py.forallb_string Py.isdigit_char shown = true.
Proof.
  induction keys as [|ch keys IH]; intros guess shown Hd; simpl.
  - intros [H | []]. now inversion H; subst.
  - destruct (on_key self guess ch) as [printed next] eqn:Hk.
    assert (Hprinted : ~ In (Prompt shown) printed).
    { revert Hk. on_key_cases; intros H; inversion H; subst; simpl;
        intuition discriminate. }
    destruct next as [guess' | v | e].
    + destruct (on_key_keeps_digits _ _ _ _ _ Hd Hk) as [Hd' _].
      specialize (IH guess' shown Hd').
      destruct (edit self guess' keys) as [later r]. simpl in *.
      rewrite in_app_iff. intros [H | [H | H]]; [ | contradiction | auto ].
      now inversion H; subst.
    + simpl. intros [H | H]; [ | contradiction ]. now inversion H; subst.
    + simpl. intros [H | H]; [ | contradiction ]. now inversion H; subst.
Qed.

(** X1. Whatever is typed, every buffer [get_guess] shows holds digits only,
    and the message "Please enter a valid number!" of line 77 is never
    printed: the test [not guess.isdigit()] cannot succeed. *)
Theorem get_guess_buffer_only_digits (self : config) (keys : list ascii) :
  (forall shown : string,
      In (Prompt shown) (fst (get_guess self keys)) ->
      Py.forallb_string Py.isdigit_char shown = true) /\
  ~ In ValidationError (fst (get_guess self keys)).
Proof.
  split.
  - intros shown. now apply edit_shows_digits.
  - now apply validation_error_unreachable.
Qed.

Lemma get_guess_buffer_only_digits_witness :
  Py.forallb_string Py.isdigit_char "12" = true /\
  ~ In ValidationError
      (fst (get_guess (Config 1 99 3) ["1"; "a"; "2"; carriage_return]%char)).
Proof.
  destruct (get_guess_buffer_only_digits (Config 1 99 3)
              ["1"; "a"; "2"; carriage_return]%char) as [Hshown Hnever].
  split; [| exact Hnever].
  apply Hshown. vm_compute. find_in.
Defined.

Lemma digits_value_nonneg (s : string) :
  forall acc : Z, 0 <= acc -> 0 <= Py.digits_value acc s.
Proof.
  induction s as [|c s IH]; intros acc Hacc; cbn [Py.digits_value];
    [exact Hacc|].
  apply IH. pose proof (N2Z.is_nonneg (Py.code c - 48)). lia.
Qed.

Lemma on_key_accepts_value (self : config) (guess : string) (ch : ascii)
    (printed : list event) (n : Z) :
  on_key self guess ch = (printed, Returns (Num n)) ->
  ch = carriage_return /\ Py.int guess = inr n.
Proof.
  on_key_cases; intros H; inversion H; subst.
  split; [| reflexivity].
  match goal with
  | Hc : Ascii.eqb ch carriage_return = true |- _ => now apply Ascii.eqb_eq in Hc
  end.
Qed.

Lemma int_nonneg (s : string) (n : Z) : Py.int s = inr n -> 0 <= n.
Proof.
  unfold Py.int. destruct (Py.truthy s && _); intros H; inversion H.
  apply digits_value_nonneg. lia.
Qed.

Lemma edit_accepts_nonneg (self : config) (keys : list ascii) :
  forall (guess : string) (out : list event) (n : Z) (rest : list ascii),
    edit self guess keys = (out, Done (Num n) rest) -> 0 <= n.
Proof.
  induction keys as [|ch keys IH]; intros guess out n rest; simpl.
  - discriminate.
  - destruct (on_key self guess ch) as [printed next] eqn:Hk.
    destruct next as [guess' | v | e].
    + destruct (edit self guess' keys) as [later r] eqn:He.
      intros H; inversion H; subst. eapply IH; eassumption.
    + intros H; inversion H; subst.
      apply on_key_accepts_value in Hk. destruct Hk as [_ Hint].
      eapply int_nonneg; eassumption.
    + discriminate.
Qed.

(** X2. A number that [get_guess] returns is never negative, since no key
    enters a sign; so a game whose [max_num] is negative accepts no guess at
    all. *)
Theorem get_guess_nonnegative (self : config) (keys : list ascii)
    (out : list event) (n : Z) (rest : list ascii) :
  get_guess self keys = (out, Done (Num n) rest) ->
  0 <= n /\ 0 <= max_num self.
Proof.
  intros H. pose proof (edit_accepts_nonneg _ _ _ _ _ _ H) as Hn.
  pose proof (edit_accepts_in_range _ _ _ _ _ _ H) as Hr. lia.
Qed.

Lemma get_guess_nonnegative_witness :
  0 <= 7 /\ 0 <= max_num default_config.
Proof.
  exact (get_guess_nonnegative default_config (typed "7") _ 7 [] eq_refl).
Defined.

(** ** Decimal writing: [str] and [int] *)

Lemma digit_codes :
  Z.of_N (Py.code "0" - 48) = 0 /\ Z.of_N (Py.code "1" - 48) = 1 /\
  Z.of_N (Py.code "2" - 48) = 2 /\ Z.of_N (Py.code "3" - 48) = 3 /\
  Z.of_N (Py.code "4" - 48) = 4 /\ Z.of_N (Py.code "5" - 48) = 5 /\
  Z.of_N (Py.code "6" - 48) = 6 /\ Z.of_N (Py.code "7" - 48) = 7 /\
  Z.of_N (Py.code "8" - 48) = 8 /\ Z.of_N (Py.code "9" - 48) = 9.
Proof. repeat split. Qed.

Lemma digits_value_acc (d : Decimal.uint) :
  forall acc : positive,
    Py.digits_value (Z.pos acc) (NilEmpty.string_of_uint d)
    = Z.pos (Pos.of_uint_acc d acc).
Proof.
  destruct digit_codes as (H0 & H1 & H2 & H3 & H4 & H5 & H6 & H7 & H8 & H9).
  induction d as [|d IH|d IH|d IH|d IH|d IH|d IH|d IH|d IH|d IH|d IH];
    intros acc;
    cbn [NilEmpty.string_of_uint Py.digits_value Pos.of_uint_acc];
    [reflexivity | ..]; rewrite <- IH; f_equal;
    rewrite ?H0, ?H1, ?H2, ?H3, ?H4, ?H5, ?H6, ?H7, ?H8, ?H9; lia.
Qed.

Lemma digits_value_of_uint (d : Decimal.uint) :
  Py.digits_value 0 (NilEmpty.string_of_uint d) = Z.of_N (Pos.of_uint d).
Proof.
  destruct digit_codes as (H0 & H1 & H2 & H3 & H4 & H5 & H6 & H7 & H8 & H9).
  induction d as [|d IH|d IH|d IH|d IH|d IH|d IH|d IH|d IH|d IH|d IH];
    cbn [NilEmpty.string_of_uint Py.digits_value Pos.of_uint];
    [reflexivity | rewrite H0; exact IH | ..];
    rewrite ?H1, ?H2, ?H3, ?H4, ?H5, ?H6, ?H7, ?H8, ?H9;
    cbn [Z.mul Z.add Z.of_N]; apply digits_value_acc.
Qed.

Lemma all_decimal_uint (d : Decimal.uint) :
  Py.forallb_string Py.isdecimal_char (NilEmpty.string_of_uint d) = true.
Proof. induction d; simpl; auto. Qed.

Lemma decimal_is_digit (s : string) :
  Py.forallb_string Py.isdecimal_char s = true ->
  Py.forallb_string Py.isdigit_char s = true.
Proof.
  induction s as [|c s IH]; cbn [Py.forallb_string]; [easy|].
  intros [Hc Hs]%andb_prop. rewrite (IH Hs), andb_true_r.
  unfold Py.isdigit_char. now rewrite Hc.
Qed.

(** The decimal writing of a positive number, as [str] gives it. *)
Lemma str_pos (p : positive) :
  Py.str (Z.pos p) = NilEmpty.string_of_uint (Pos.to_uint p).
Proof.
  unfold Py.str. cbn [Z.to_int NilZero.string_of_int].
  unfold NilZero.string_of_uint.
  pose proof (DecimalPos.Unsigned.to_uint_nonnil p) as Hnil.
  now destruct (Pos.to_uint p).
Qed.

Lemma str_nonneg_decimal (n : Z) :
  0 <= n ->
  Py.truthy (Py.str n) = true /\
  Py.forallb_string Py.isdecimal_char (Py.str n) = true.
Proof.
  intros Hn. destruct n as [|p|p]; [split; reflexivity | | lia].
  rewrite str_pos. split; [| apply all_decimal_uint].
  pose proof (DecimalPos.Unsigned.to_uint_nonnil p) as Hnil.
  now destruct (Pos.to_uint p).
Qed.

(** [int(str(n))] is [n]. *)
Lemma int_str (n : Z) : 0 <= n -> Py.int (Py.str n) = inr n.
Proof.
  intros Hn. unfold Py.int.
  destruct (str_nonneg_decimal n Hn) as [-> ->]. cbn [andb]. f_equal.
  destruct n as [|p|p]; [reflexivity | | lia].
  rewrite str_pos, digits_value_of_uint, DecimalPos.Unsigned.of_to.
  reflexivity.
Qed.

Lemma decimal_char_value (c : ascii) :
  Py.isdecimal_char c = true -> 0 <= Z.of_N (Py.code c - 48) <= 9.
Proof.
  unfold Py.isdecimal_char, Py.between.
  intros [H1 H2]%andb_prop. apply N.leb_le in H1, H2. lia.
Qed.

Lemma len_cons (c : ascii) (s : string) : Py.len (String c s) = Py.len s + 1.
Proof. unfold Py.len. cbn [String.length]. lia. Qed.

(** A run of [len(s)] decimal digits read after [acc] gives a value between
    [acc] followed by zeros and [acc] followed by nines. *)
Lemma digits_value_bounds (s : string) :
  Py.forallb_string Py.isdecimal_char s = true ->
  forall acc : Z,
    0 <= acc ->
    acc * 10 ^ Py.len s <= Py.digits_value acc s < (acc + 1) * 10 ^ Py.len s.
Proof.
  induction s as [|c s IH]; cbn [Py.forallb_string Py.digits_value].
  - intros _ acc Hacc. change (Py.len "") with 0. lia.
  - intros [Hc Hs]%andb_prop acc Hacc.
    pose proof (decimal_char_value c Hc) as Hv.
    pose proof (len_nonneg s) as Hlen.
    specialize (IH Hs (10 * acc + Z.of_N (Py.code c - 48)) ltac:(lia)).
    rewrite len_cons, Z.pow_add_r, Z.pow_1_r by lia.
    assert (Hp : 0 < 10 ^ Py.len s) by (apply Z.pow_pos_nonneg; lia).
    nia.
Qed.

Lemma nzhead_shape (d : Decimal.uint) :
  match Decimal.nzhead d with Decimal.D0 _ => False | _ => True end.
Proof. induction d; simpl; auto. Qed.

(** The decimal writing of a positive number does not start with a zero. *)
Lemma to_uint_no_leading_zero (p : positive) :
  match Pos.to_uint p with
  | Decimal.Nil | Decimal.D0 _ => False
  | _ => True
  end.
Proof.
  pose proof (DecimalPos.Unsigned.to_of (Pos.to_uint p)) as Hnorm.
  rewrite DecimalPos.Unsigned.of_to in Hnorm. cbn [N.to_uint] in Hnorm.
  pose proof (DecimalPos.Unsigned.to_uint_nonzero p) as Hnz.
  pose proof (nzhead_shape (Pos.to_uint p)) as Hshape.
  unfold Decimal.unorm in Hnorm.
  destruct (Decimal.nzhead (Pos.to_uint p)) eqn:Hhead;
    first [ rewrite Hnorm; exact I | contradiction ].
Qed.

Lemma str_bounds (p : positive) :
  10 ^ (Py.len (Py.str (Z.pos p)) - 1) <= Z.pos p
  < 10 ^ Py.len (Py.str (Z.pos p)).
Proof.
  pose proof (int_str (Z.pos p) ltac:(lia)) as Hint.
  pose proof (str_nonneg_decimal (Z.pos p) ltac:(lia)) as [_ Hdec].
  unfold Py.int in Hint. rewrite Hdec in Hint.
  rewrite str_pos in *.
  pose proof (to_uint_no_leading_zero p) as Hlead.
  destruct digit_codes as (H0 & H1 & H2 & H3 & H4 & H5 & H6 & H7 & H8 & H9).
  destruct (Pos.to_uint p) as [|d|d|d|d|d|d|d|d|d|d]; try contradiction;
    cbn [NilEmpty.string_of_uint Py.truthy andb Py.forallb_string] in *;
    inversion Hint as [Hval]; clear Hint;
    cbn [Py.digits_value] in Hval;
    rewrite ?H1, ?H2, ?H3, ?H4, ?H5, ?H6, ?H7, ?H8, ?H9 in Hval;
    apply andb_prop in Hdec; destruct Hdec as [_ Hdec];
    rewrite len_cons; replace (Py.len _ + 1 - 1) with
      (Py.len (NilEmpty.string_of_uint d)) by lia;
    rewrite Z.pow_add_r, Z.pow_1_r by (pose proof (len_nonneg (NilEmpty.string_of_uint d)); lia);
    match type of Hval with
    | Py.digits_value ?k _ = _ =>
        pose proof (digits_value_bounds _ Hdec k ltac:(lia)) as Hb
    end;
    rewrite Hval in Hb;
    assert (Hp : 0 < 10 ^ Py.len (NilEmpty.string_of_uint d))
      by (apply Z.pow_pos_nonneg;
          [lia | apply len_nonneg]);
    nia.
Qed.

(** A smaller number is not written with more digits. *)
Lemma len_str_mono (n m : Z) :
  0 <= n <= m -> Py.len (Py.str n) <= Py.len (Py.str m).
Proof.
  intros [Hn Hnm].
  destruct n as [|p|p]; [| | lia].
  - destruct (str_nonneg_decimal m ltac:(lia)) as [Ht _].
    change (Py.len (Py.str 0)) with 1.
    destruct (Py.str m); [discriminate Ht|]. rewrite len_cons.
    pose proof (len_nonneg s). lia.
  - destruct m as [|q|q]; try lia.
    pose proof (str_bounds p) as Hp. pose proof (str_bounds q) as Hq.
    destruct (Z_le_gt_dec (Py.len (Py.str (Z.pos p))) (Py.len (Py.str (Z.pos q))))
      as [Hle | Hgt]; [exact Hle | exfalso].
    assert (Hpow : 10 ^ Py.len (Py.str (Z.pos q))
                   <= 10 ^ (Py.len (Py.str (Z.pos p)) - 1)).
    { apply Z.pow_le_mono_r; [lia|]. lia. }
    lia.
Qed.

(** ** The guess editor: typing a number *)

Lemma append_empty (s : string) : String.append s "" = s.
Proof. induction s as [|c s IH]; simpl; congruence. Qed.

Lemma push_append (g : string) (c : ascii) (t : string) :
  String.append (Py.push g c) t = String.append g (String c t).
Proof. unfold Py.push. induction g as [|c' g IH]; simpl; congruence. Qed.

Lemma first_chars_none (n : Z) (s : string) : n <= 0 -> first_chars n s = "".
Proof.
  intros Hn. unfold first_chars. replace (Z.to_nat n) with O by lia.
  now destruct s.
Qed.

Lemma first_chars_cons (n : Z) (c : ascii) (s : string) :
  0 < n -> first_chars n (String c s) = String c (first_chars (n - 1) s).
Proof.
  intros Hn. unfold first_chars.
  replace (Z.to_nat n) with (S (Z.to_nat (n - 1))) by lia. reflexivity.
Qed.

Lemma first_chars_all (n : Z) (s : string) :
  Py.len s <= n -> first_chars n s = s.
Proof.
  revert n. induction s as [|c s IH]; intros n Hn.
  - unfold first_chars. now destruct (Z.to_nat n).
  - rewrite len_cons in Hn. pose proof (len_nonneg s).
    rewrite first_chars_cons by lia. f_equal. apply IH. lia.
Qed.

(** Typing digits at a buffer within the cap: the loop shows the prompt at
    each key and goes on from the buffer extended by as many of the digits
    as fit. *)
Lemma edit_types_digits (self : config) (keys : list ascii) (s : string) :
  forall g : string,
    Py.forallb_string Py.isdigit_char s = true ->
    Py.len g <= Py.len (Py.str (max_num self)) ->
    let g' := String.append g
                (first_chars (Py.len (Py.str (max_num self)) - Py.len g) s) in
    exists prompts : list event,
      (forall e, In e prompts -> exists b, e = Prompt b) /\
      edit self g (keys_of s ++ keys)
      = (prompts ++ fst (edit self g' keys), snd (edit self g' keys)).
Proof.
  induction s as [|c s IH]; intros g Hd Hg; cbv zeta.
  - exists []. split; [intros e []|].
    replace (first_chars _ "") with "" by now (unfold first_chars; destruct (Z.to_nat _)).
    rewrite append_empty. cbn [keys_of list_ascii_of_string app].
    now destruct (edit self g keys).
  - cbn [Py.forallb_string] in Hd. apply andb_prop in Hd. destruct Hd as [Hc Hs].
    change (keys_of (String c s) ++ keys) with (c :: (keys_of s ++ keys)).
    cbn [edit]. rewrite (on_key_digit self g c Hc).
    destruct (Z.ltb_spec (Py.len g) (Py.len (Py.str (max_num self)))) as [Hlt | Hge].
    + destruct (IH (Py.push g c) Hs) as (prompts & Hprompts & Hrun).
      { rewrite len_push. lia. }
      cbv zeta in Hrun. rewrite len_push in Hrun.
      rewrite push_append in Hrun.
      rewrite first_chars_cons by lia.
      replace (Py.len (Py.str (max_num self)) - Py.len g - 1)
        with (Py.len (Py.str (max_num self)) - (Py.len g + 1)) by lia.
      rewrite Hrun. exists (Prompt g :: prompts). split.
      * intros e [<- | He]; [now exists g | now apply Hprompts].
      * reflexivity.
    + destruct (IH g Hs Hg) as (prompts & Hprompts & Hrun).
      cbv zeta in Hrun.
      rewrite (first_chars_none _ (String c s)) by lia.
      rewrite (first_chars_none _ s) in Hrun by lia.
      rewrite Hrun. exists (Prompt g :: prompts). split.
      * intros e [<- | He]; [now exists g | now apply Hprompts].
      * reflexivity.
Qed.

(** X3. Typing a run of digits from the empty buffer keeps the first
    [len(str(max_num))] of them and drops the others without notice: the
    editor goes on as from that buffer, having printed prompts only. So
    with [max_num = 10], typing 1, 0, 0 and Enter returns 10. *)
Theorem get_guess_keeps_first_digits (self : config) (s : string)
    (keys : list ascii) :
  Py.forallb_string Py.isdigit_char s = true ->
  let kept := first_chars (Py.len (Py.str (max_num self))) s in
  exists prompts : list event,
    (forall e, In e prompts -> exists b, e = Prompt b) /\
    get_guess self (keys_of s ++ keys)
    = (prompts ++ fst (edit self kept keys), snd (edit self kept keys)).
Proof.
  intros Hd. unfold get_guess.
  destruct (edit_types_digits self keys s "" Hd (len_nonneg _))
    as (prompts & Hprompts & Hrun).
  cbv zeta in *. change (Py.len "") with 0 in Hrun.
  rewrite Z.sub_0_r in Hrun. cbn [String.append] in Hrun.
  exists prompts. now split.
Qed.

Lemma get_guess_keeps_first_digits_witness :
  exists prompts : list event,
    (forall e, In e prompts -> exists b, e = Prompt b) /\
    get_guess default_config (keys_of "100" ++ [carriage_return])
    = (prompts ++ [Prompt "10"; Newline], Done (Num 10) []).
Proof.
  exact (get_guess_keeps_first_digits default_config "100" [carriage_return]
           eq_refl).
Defined.

(** Enter on a buffer that [int] reads as [n]. *)
Lemma on_key_submit (self : config) (guess : string) (n : Z) :
  Py.isdigit guess = true ->
  Py.int guess = inr n ->
  on_key self guess carriage_return
  = if (min_num self <=? n) && (n <=? max_num self)
    then ([Newline], Returns (Num n))
    else ([Newline; RangeError (min_num self) (max_num self)], Editing "").
Proof.
  intros Hd Hint. unfold on_key.
  change (Ascii.eqb (Py.lower carriage_return) "x") with false.
  change (Ascii.eqb carriage_return delete) with false.
  change (Ascii.eqb carriage_return backspace) with false.
  change (Ascii.eqb carriage_return carriage_return) with true.
  cbn [orb andb]. rewrite Hd, Hint.
  assert (Ht : Py.truthy guess = true) by (destruct guess; [discriminate Hd | reflexivity]).
  rewrite Ht. cbn [negb].
  now destruct ((min_num self <=? n) && (n <=? max_num self)).
Qed.

Lemma str_isdigit (n : Z) : 0 <= n -> Py.isdigit (Py.str n) = true.
Proof.
  intros Hn. destruct (str_nonneg_decimal n Hn) as [Ht Hd].
  rewrite isdigit_all, Ht. now apply decimal_is_digit.
Qed.

(** Typing the decimal writing of [n], when it fits the cap, and Enter. *)
Lemma get_guess_typed_number (self : config) (n : Z) (keys : list ascii) :
  0 <= n ->
  Py.len (Py.str n) <= Py.len (Py.str (max_num self)) ->
  exists prompts : list event,
    (forall e, In e prompts -> exists b, e = Prompt b) /\
    get_guess self (typed (Py.str n) ++ keys)
    = if (min_num self <=? n) && (n <=? max_num self)
      then (prompts ++ [Prompt (Py.str n); Newline], Done (Num n) keys)
      else (prompts ++ [Prompt (Py.str n); Newline;
                        RangeError (min_num self) (max_num self)]
              ++ fst (get_guess self keys),
            snd (get_guess self keys)).
Proof.
  intros Hn Hfit. unfold typed. rewrite <- app_assoc.
  destruct (str_nonneg_decimal n Hn) as [_ Hdec].
  destruct (edit_types_digits self ([carriage_return] ++ keys) (Py.str n) ""
              (decimal_is_digit _ Hdec) (len_nonneg _))
    as (prompts & Hprompts & Hrun).
  cbv zeta in Hrun. change (Py.len "") with 0 in Hrun.
  rewrite Z.sub_0_r, first_chars_all in Hrun by exact Hfit.
  cbn [String.append] in Hrun.
  change ([carriage_return] ++ keys) with (carriage_return :: keys) in *.
  exists prompts. split; [exact Hprompts|].
  unfold get_guess at 1. rewrite Hrun. cbn [edit].
  rewrite (on_key_submit self (Py.str n) n (str_isdigit n Hn) (int_str n Hn)).
  destruct ((min_num self <=? n) && (n <=? max_num self)); cbn [fst snd].
  - reflexivity.
  - unfold get_guess. destruct (edit self "" keys) as [later r].
    cbn [fst snd app]. reflexivity.
Qed.

(** X4. Every number of the range that is not negative can be entered:
    typing its decimal writing and Enter makes [get_guess] return it,
    leaving the keys after Enter unread. *)
Theorem get_guess_accepts_typed_number (self : config) (n : Z)
    (rest : list ascii) :
  0 <= n ->
  min_num self <= n <= max_num self ->
  exists out : list event,
    get_guess self (typed (Py.str n) ++ rest) = (out, Done (Num n) rest).
Proof.
  intros Hn [Hlo Hhi].
  destruct (get_guess_typed_number self n rest Hn) as (prompts & _ & Hrun).
  { apply len_str_mono. lia. }
  rewrite Hrun.
  destruct (Z.leb_spec (min_num self) n); [|lia].
  destruct (Z.leb_spec n (max_num self)); [|lia].
  cbn [andb]. eauto.
Qed.

Lemma get_guess_accepts_typed_number_witness :
  exists out : list event,
    get_guess default_config (typed (Py.str 10) ++ ["5"%char])
    = (out, Done (Num 10) ["5"%char]).
Proof.
  apply (get_guess_accepts_typed_number default_config 10 ["5"%char]).
  - lia.
  - cbn. lia.
Defined.

(** X5. A number outside the range, typed in full (its writing fits the
    cap) and submitted, is answered by the range message and forgotten: the
    editor goes on exactly as a fresh [get_guess] on the keys that
    follow. *)
Theorem get_guess_rejects_out_of_range (self : config) (n : Z)
    (keys : list ascii) :
  0 <= n ->
  Py.len (Py.str n) <= Py.len (Py.str (max_num self)) ->
  ~ (min_num self <= n <= max_num self) ->
  exists out : list event,
    In (RangeError (min_num self) (max_num self)) out /\
    get_guess self (typed (Py.str n) ++ keys)
    = (out ++ fst (get_guess self keys), snd (get_guess self keys)).
Proof.
  intros Hn Hfit Hout.
  destruct (get_guess_typed_number self n keys Hn Hfit) as (prompts & _ & Hrun).
  rewrite Hrun.
  destruct ((min_num self <=? n) && (n <=? max_num self)) eqn:Hin.
  - apply andb_prop in Hin. destruct Hin as [H1 H2].
    apply Z.leb_le in H1, H2. lia.
  - exists (prompts ++ [Prompt (Py.str n); Newline;
                       RangeError (min_num self) (max_num self)]).
    split.
    + rewrite in_app_iff. right. simpl. tauto.
    + now rewrite <- app_assoc.
Qed.

Lemma get_guess_rejects_out_of_range_witness :
  exists out : list event,
    In (RangeError 1 10) out /\
    get_guess default_config (typed (Py.str 15) ++ typed "7")
    = (out ++ fst (get_guess default_config (typed "7")),
       snd (get_guess default_config (typed "7"))).
Proof.
  apply (get_guess_rejects_out_of_range default_config 15 (typed "7")).
  - lia.
  - vm_compute. discriminate.
  - cbn. lia.
Defined.

(** ** The guess editor: the keys it reads *)

Lemma on_key_returning_key (self : config) (guess : string) (ch : ascii)
    (printed : list event) (v : guess_value) :
  on_key self guess ch = (printed, Returns v) -> returning_key v ch.
Proof.
  destruct v as [|n]; intros Hk.
  - revert Hk. on_key_cases; intros H; inversion H; subst.
    apply lower_is_x. now apply Ascii.eqb_eq.
  - now apply on_key_accepts_value in Hk.
Qed.

Lemma edit_reads_prefix (self : config) (keys : list ascii) :
  forall (guess : string) (out : list event) (v : guess_value)
         (rest : list ascii),
    edit self guess keys = (out, Done v rest) ->
    exists (used : list ascii) (last : ascii),
      keys = used ++ last :: rest /\
      returning_key v last /\
      forall rest', edit self guess (used ++ last :: rest') = (out, Done v rest').
Proof.
  induction keys as [|ch keys IH]; intros guess out v rest; simpl.
  - discriminate.
  - destruct (on_key self guess ch) as [printed next] eqn:Hk.
    destruct next as [guess' | v' | e].
    + destruct (edit self guess' keys) as [later r] eqn:He.
      intros H; inversion H; subst.
      destruct (IH _ _ _ _ He) as (used & last & Hkeys & Hlast & Hany).
      exists (ch :: used), last. split; [now rewrite Hkeys|].
      split; [exact Hlast|]. intros rest'. simpl. now rewrite Hk, Hany.
    + intros H; inversion H; subst.
      exists [], ch. split; [reflexivity|].
      split; [eapply on_key_returning_key; eassumption|].
      intros rest'. simpl. now rewrite Hk.
    + discriminate.
Qed.

(** X6. When [get_guess] returns, it has read a non-empty prefix of the
    keys, ending with the key that made it return ('x' or 'X' for 'quit',
    Enter for a number); the keys after it are left for the next reader,
    and do not influence what is returned or printed. *)
Theorem get_guess_reads_prefix (self : config) (keys : list ascii)
    (out : list event) (v : guess_value) (rest : list ascii) :
  get_guess self keys = (out, Done v rest) ->
  exists (used : list ascii) (last : ascii),
    keys = used ++ last :: rest /\
    returning_key v last /\
    forall rest', get_guess self (used ++ last :: rest') = (out, Done v rest').
Proof. apply edit_reads_prefix. Qed.

Lemma get_guess_reads_prefix_witness :
  exists (used : list ascii) (last : ascii),
    ["4"; carriage_return; "9"]%char = used ++ last :: ["9"%char] /\
    returning_key (Num 4) last /\
    forall rest',
      get_guess default_config (used ++ last :: rest')
      = ([Prompt ""; Prompt "4"; Newline], Done (Num 4) rest').
Proof.
  exact (get_guess_reads_prefix default_config
           ["4"; carriage_return; "9"]%char _ (Num 4) ["9"%char] eq_refl).
Defined.

Lemma lower_not_x (ch : ascii) :
  ch = backspace \/ ch = delete -> Ascii.eqb (Py.lower ch) "x" = false.
Proof. intros [-> | ->]; reflexivity. Qed.

Lemma drop_last_push (g : string) (ch : ascii) : Py.drop_last (Py.push g ch) = g.
Proof.
  unfold Py.push. induction g as [|c g IH]; [reflexivity|].
  cbn [String.append Py.drop_last]. rewrite IH.
  now destruct g.
Qed.

Lemma truthy_push (g : string) (ch : ascii) : Py.truthy (Py.push g ch) = true.
Proof. now destruct g. Qed.

(** X7. Below the cap, a digit followed by backspace (or delete) leaves the
    buffer as it was: the editor shows the longer buffer, erases the digit,
    and goes on as if neither key had been pressed. *)
Theorem digit_then_backspace (self : config) (guess : string) (d bs : ascii)
    (keys : list ascii) :
  Py.isdigit_char d = true ->
  Py.len guess < Py.len (Py.str (max_num self)) ->
  bs = backspace \/ bs = delete ->
  edit self guess (d :: bs :: keys)
  = (Prompt guess :: Prompt (Py.push guess d) :: Erase
       :: fst (edit self guess keys),
     snd (edit self guess keys)).
Proof.
  intros Hd Hlt Hbs. cbn [edit]. rewrite (on_key_digit self guess d Hd).
  destruct (Z.ltb_spec (Py.len guess) (Py.len (Py.str (max_num self)))); [|lia].
  assert (Hk : on_key self (Py.push guess d) bs = ([Erase], Editing guess)).
  { unfold on_key. rewrite (lower_not_x bs Hbs), truthy_push, drop_last_push.
    now destruct Hbs as [-> | ->]. }
  rewrite Hk. destruct (edit self guess keys). reflexivity.
Qed.

Lemma digit_then_backspace_witness :
  edit default_config "1" ["0"; backspace; carriage_return]%char
  = (Prompt "1" :: Prompt (Py.push "1" "0") :: Erase
       :: fst (edit default_config "1" [carriage_return]),
     snd (edit default_config "1" [carriage_return])).
Proof.
  apply (digit_then_backspace default_config "1" "0" backspace [carriage_return]).
  - reflexivity.
  - reflexivity.
  - now left.
Defined.

(** ** The round: guesses and budget *)

Lemma count_events_app {A : Type} (p : A -> bool) (l1 l2 : list A) :
  count_events p (l1 ++ l2) = (count_events p l1 + count_events p l2)%nat.
Proof. induction l1 as [|e l1 IH]; simpl; [reflexivity | rewrite IH; lia]. Qed.

Lemma editor_events_no_hint (l : list event) :
  Forall editor_event l -> count_events is_hint l = O.
Proof.
  induction 1 as [|e l He _ IH]; [reflexivity|].
  simpl. rewrite IH. now destruct e.
Qed.

Lemma get_guess_no_hint (self : config) (keys : list ascii) :
  count_events is_hint (fst (get_guess self keys)) = O.
Proof. apply editor_events_no_hint, edit_events. Qed.

Section RoundBudget.

Variable self : config.
Variable target : Z.

Lemma play_loop_budget (bound : nat) :
  forall (attempts : Z) (st : stats) (keys : list ascii),
    let out := fst (play_loop self target bound attempts st keys) in
    (count_events is_hint out <= Z.to_nat attempts)%nat /\
    (In (GameOver target) out ->
     count_events is_hint out = Z.to_nat attempts) /\
    (In (Congratulations target) out ->
     (count_events is_hint out < Z.to_nat attempts)%nat /\
     min_num self <= target <= max_num self /\ 0 <= target).
Proof.
  induction bound as [|bound IH]; intros attempts st keys; cbv zeta;
    cbn [play_loop].
  - destruct (Z.gtb_spec attempts 0); cbn; repeat split; try lia; intros [].
  - destruct (Z.gtb_spec attempts 0) as [Hpos | Hnpos];
      [| cbn; repeat split; try lia; intros []].
    pose proof (get_guess_no_round_event self keys (Congratulations target))
      as Hcongr.
    pose proof (get_guess_no_round_event self keys (GameOver target)) as Hover.
    pose proof (get_guess_no_hint self keys) as Hhint.
    destruct (get_guess self keys) as [shown r] eqn:Hguess.
    cbn [fst] in Hcongr, Hover, Hhint.
    assert (Hc : ~ In (Congratulations target) shown) by (apply Hcongr; exact id).
    assert (Ho : ~ In (GameOver target) shown) by (apply Hover; exact id).
    clear Hcongr Hover.
    assert (Hquiet :
      (count_events is_hint (AttemptsRemaining attempts :: shown)
       <= Z.to_nat attempts)%nat /\
      (In (GameOver target) (AttemptsRemaining attempts :: shown) ->
       count_events is_hint (AttemptsRemaining attempts :: shown)
       = Z.to_nat attempts) /\
      (In (Congratulations target) (AttemptsRemaining attempts :: shown) ->
       (count_events is_hint (AttemptsRemaining attempts :: shown)
        < Z.to_nat attempts)%nat /\
       min_num self <= target <= max_num self /\ 0 <= target)).
    { cbn [count_events is_hint]. rewrite Hhint. split; [lia|]. split.
      - intros [Hx | Hx]; [discriminate Hx | contradiction].
      - intros [Hx | Hx]; [discriminate Hx | contradiction]. }
    destruct r as [[|guess] rest | e | buffer |]; try exact Hquiet.
    destruct (Z.eqb_spec guess target) as [Heq | Hne].
    + (* the right guess *)
      cbn [fst]. unfold win_feedback.
      change (AttemptsRemaining attempts :: shown)
        with ([AttemptsRemaining attempts] ++ shown).
      rewrite !count_events_app. cbn [count_events is_hint play_sound app].
      rewrite Hhint. split; [lia|]. split.
      * intros [Hx | Hx]; [discriminate Hx|].
        apply in_app_iff in Hx. destruct Hx as [Hx | Hx]; [contradiction|].
        cbn in Hx. intuition discriminate.
      * intros _. split; [lia|]. subst guess. split.
        -- eapply edit_accepts_in_range; exact Hguess.
        -- eapply edit_accepts_nonneg; exact Hguess.
    + (* a wrong guess *)
      rewrite wrong_guess_feedback_events.
      specialize (IH (attempts - 1) st rest). cbv zeta in IH.
      destruct (play_loop self target bound (attempts - 1) st rest)
        as [later r'] eqn:Hloop.
      cbn [fst] in *. destruct IH as (IHle & IHover & IHwin).
      set (heard := [Newline; Beep (if guess <? target then A4 else Bb4);
                     Hint (if guess <? target then Low else High); Newline]
                    ++ (if attempts - 1 =? 0 then lose_feedback target else [])).
      assert (Hh1 : count_events is_hint heard = 1%nat).
      { unfold heard. rewrite count_events_app.
        now destruct (attempts - 1 =? 0). }
      assert (Hh2 : ~ In (Congratulations target) heard).
      { unfold heard. rewrite in_app_iff.
        destruct (attempts - 1 =? 0); cbn; intuition discriminate. }
      assert (Hh3 : In (GameOver target) heard -> attempts - 1 = 0).
      { unfold heard. rewrite in_app_iff.
        destruct (Z.eqb_spec (attempts - 1) 0); [auto|].
        cbn; intuition discriminate. }
      assert (Hl : attempts - 1 = 0 -> later = []).
      { intros Hz. rewrite Hz in Hloop.
        destruct bound; cbn in Hloop; now inversion Hloop. }
      clearbody heard.
      rewrite !count_events_app. cbn [count_events is_hint].
      rewrite Hhint, Hh1.
      replace (Z.to_nat attempts) with (S (Z.to_nat (attempts - 1))) by lia.
      split; [lia|]. split.
      * rewrite !in_app_iff. intros [[Hx | Hx] | [Hx | Hx]].
        -- discriminate Hx.
        -- contradiction.
        -- pose proof (Hh3 Hx) as Hz. rewrite (Hl Hz), Hz. reflexivity.
        -- rewrite (IHover Hx). lia.
      * rewrite !in_app_iff. intros [[Hx | Hx] | [Hx | Hx]];
          [discriminate Hx | contradiction | contradiction |].
        destruct (IHwin Hx) as (Hlt & Hrange). split; [lia | exact Hrange].
Qed.

(** X9. In a round, however it goes on or ends, the hints given never
    outnumber [max_attempts]; when the game-over line is printed exactly
    [max_attempts] hints were given; and when the congratulation is printed
    fewer were, and the target is a number of the range that is not
    negative (a target outside the range is never guessed). *)
Theorem round_within_budget (st : stats) (keys : list ascii) :
  let out := fst (play_round self target st keys) in
  (count_events is_hint out <= Z.to_nat (max_attempts self))%nat /\
  (In (GameOver target) out ->
   count_events is_hint out = Z.to_nat (max_attempts self)) /\
  (In (Congratulations target) out ->
   (count_events is_hint out < Z.to_nat (max_attempts self))%nat /\
   min_num self <= target <= max_num self /\ 0 <= target).
Proof.
  cbv zeta. unfold play_round, guessing_loop.
  pose proof (play_loop_budget (Z.to_nat (max_attempts self))
                (max_attempts self) st keys) as H.
  cbv zeta in H.
  destruct (play_loop self target (Z.to_nat (max_attempts self))
              (max_attempts self) st keys) as [later r].
  cbn [fst] in *. destruct H as (Hle & Hover & Hwin).
  cbn [count_events is_hint]. split; [lia|]. split.
  - intros [Hx | [Hx | Hx]]; [discriminate Hx | discriminate Hx |].
    rewrite (Hover Hx). lia.
  - intros [Hx | [Hx | Hx]]; [discriminate Hx | discriminate Hx |].
    destruct (Hwin Hx) as (Hlt & Hrange). split; [lia | exact Hrange].
Qed.

End RoundBudget.

Lemma round_within_budget_witness :
  let out := fst (play_round default_config 4 initial_stats
                    (typed "9" ++ typed "8" ++ typed "7")) in
  In (GameOver 4) out /\ count_events is_hint out = 3%nat.
Proof.
  cbv zeta. split; [vm_compute; find_in|].
  apply (proj1 (proj2 (round_within_budget default_config 4 initial_stats
                         (typed "9" ++ typed "8" ++ typed "7")))).
  vm_compute. find_in.
Defined.

(** ** The round: how it ends *)

(** X10. A round that returns keeps the counters sound: if the wins were
    between zero and the games before it, they are after it. *)
Theorem round_keeps_wins_within_games (self : config) (target : Z)
    (st : stats) (keys : list ascii) (out : list event) (v : round_value)
    (st' : stats) (rest : list ascii) :
  0 <= wins st <= games st ->
  play_round self target st keys = (out, Done (v, st') rest) ->
  0 <= wins st' <= games st'.
Proof.
  intros Hinv Hrun.
  destruct (play_round_done _ _ _ _ _ _ _ _ Hrun) as [Hgames Hend].
  destruct Hend as [Hend | [Hend | Hend]];
    [ unfold ends_by_quit in Hend
    | unfold ends_by_win in Hend
    | unfold ends_exhausted in Hend ];
    destruct Hend as (_ & Hwins & _); lia.
Qed.

Lemma round_keeps_wins_within_games_witness :
  0 <= wins (Stats 3 3) <= games (Stats 3 3).
Proof.
  apply (round_keeps_wins_within_games default_config 7 (Stats 2 2)
           (typed "7")
           (fst (play_round default_config 7 (Stats 2 2) (typed "7")))
           RoundContinue (Stats 3 3) []).
  - cbn. lia.
  - reflexivity.
Defined.

Lemma edit_done_last (self : config) (keys : list ascii) :
  forall (guess : string) (out : list event) (v : guess_value)
         (rest : list ascii),
    edit self guess keys = (out, Done v rest) ->
    exists before,
      out = before ++ [match v with Quit => Interrupted | Num _ => Newline end].
Proof.
  induction keys as [|ch keys IH]; intros guess out v rest; simpl.
  - discriminate.
  - destruct (on_key self guess ch) as [printed next] eqn:Hk.
    destruct next as [guess' | v' | e].
    + destruct (edit self guess' keys) as [later r] eqn:He.
      intros H; inversion H; subst.
      destruct (IH _ _ _ _ He) as (before & ->).
      exists (Prompt guess :: printed ++ before).
      cbn [app]. f_equal. apply app_assoc.
    + intros H; inversion H; subst. clear H. revert Hk.
      on_key_cases; intros H; inversion H; subst.
      * now exists [Prompt guess].
      * now exists [Prompt guess].
    + discriminate.
Qed.

Section RoundLastEvent.

Variable self : config.
Variable target : Z.

Lemma play_loop_last_event (bound : nat) :
  forall (attempts : Z) (st : stats) (keys : list ascii) (out : list event)
         (v : round_value) (st' : stats) (rest : list ascii),
    0 < attempts ->
    play_loop self target bound attempts st keys = (out, Done (v, st') rest) ->
    exists (before : list event) (final : event),
      out = before ++ [final] /\
      ((final = Interrupted /\ v = RoundQuit) \/
       (final = Congratulations target /\ v = RoundContinue) \/
       (final = GameOver target /\ v = RoundContinue)).
Proof.
  induction bound as [|bound IH]; intros attempts st keys out v st' rest Hpos;
    cbn [play_loop]; (destruct (Z.gtb_spec attempts 0); [|lia]).
  - discriminate.
  - destruct (get_guess self keys) as [shown r] eqn:Hguess.
    destruct r as [[|guess] rest0 | e | buffer |]; try discriminate.
    + intros Hrun; inversion Hrun; subst.
      destruct (edit_done_last _ _ _ _ _ _ Hguess) as (before & ->).
      exists (AttemptsRemaining attempts :: before), Interrupted.
      split; [reflexivity | now left].
    + destruct (guess =? target).
      * intros Hrun; inversion Hrun; subst.
        exists (AttemptsRemaining attempts :: shown
                  ++ [ClearScreen; Beep C5; Beep E5; Beep G5]),
               (Congratulations target).
        split; [| right; now left].
        unfold win_feedback. cbn. now rewrite <- app_assoc.
      * rewrite wrong_guess_feedback_events.
        destruct (play_loop self target bound (attempts - 1) st rest0)
          as [later r'] eqn:Hloop.
        intros Hrun; inversion Hrun; subst. clear Hrun.
        destruct (Z.eqb_spec (attempts - 1) 0) as [Hz | Hnz].
        -- rewrite Hz in Hloop.
           assert (Hl : later = [] /\ v = RoundContinue).
           { destruct bound; cbn in Hloop; now inversion Hloop. }
           destruct Hl as [-> ->].
           exists (AttemptsRemaining attempts :: shown
                     ++ [Newline; Beep (if guess <? target then A4 else Bb4);
                         Hint (if guess <? target then Low else High);
                         Newline; ClearScreen; Beep G4; Beep F4; Beep E4]),
                  (GameOver target).
           split; [| right; now right].
           unfold lose_feedback. cbn [play_sound app].
           rewrite <- app_assoc. reflexivity.
        -- assert (Hleft : 0 < attempts - 1) by lia.
           destruct (IH _ _ _ _ _ _ _ Hleft Hloop)
             as (before & final & -> & Hfinal).
           exists (AttemptsRemaining attempts :: shown
                     ++ [Newline; Beep (if guess <? target then A4 else Bb4);
                         Hint (if guess <? target then Low else High);
                         Newline] ++ before), final.
           split; [| exact Hfinal].
           cbn [app]. f_equal. rewrite <- app_assoc. reflexivity.
Qed.

(** X11. When a round with at least one attempt returns, the last thing it
    printed tells how it ended: the interruption notice when it returns
    'quit', and the congratulation or the game-over line when it returns
    'continue'; nothing is printed after them. *)
Theorem round_last_event (st : stats) (keys : list ascii) (out : list event)
    (v : round_value) (st' : stats) (rest : list ascii) :
  0 < max_attempts self ->
  play_round self target st keys = (out, Done (v, st') rest) ->
  exists (before : list event) (final : event),
    out = before ++ [final] /\
    ((final = Interrupted /\ v = RoundQuit) \/
     (final = Congratulations target /\ v = RoundContinue) \/
     (final = GameOver target /\ v = RoundContinue)).
Proof.
  intros Hpos. unfold play_round, guessing_loop.
  destruct (play_loop self target (Z.to_nat (max_attempts self))
              (max_attempts self) st keys) as [later r] eqn:Hloop.
  intros H; inversion H; subst. clear H.
  destruct (play_loop_last_event _ _ _ _ _ _ _ _ Hpos Hloop)
    as (before & final & -> & Hfinal).
  exists (ClearScreen
            :: NewGame (min_num self) (max_num self) (max_attempts self)
            :: before), final.
  now split.
Qed.

End RoundLastEvent.

Lemma round_last_event_witness :
  exists (before : list event) (final : event),
    fst (play_round default_config 4 initial_stats
           (typed "9" ++ typed "8" ++ typed "7")) = before ++ [final] /\
    ((final = Interrupted /\ RoundContinue = RoundQuit) \/
     (final = Congratulations 4 /\ RoundContinue = RoundContinue) \/
     (final = GameOver 4 /\ RoundContinue = RoundContinue)).
Proof.
  apply (round_last_event default_config 4 initial_stats
           (typed "9" ++ typed "8" ++ typed "7")
           (fst (play_round default_config 4 initial_stats
                   (typed "9" ++ typed "8" ++ typed "7")))
           RoundContinue (Stats 1 0) []).
  - reflexivity.
  - reflexivity.
Defined.

(** ** Statistics: the rate *)

Lemma show_stats_returns (st : stats) :
  exists out, show_stats st = (out, Done tt []).
Proof.
  unfold show_stats, Py.truediv.
  destruct (Z.gtb_spec (games st) 0); [|eauto].
  destruct (Z.eqb_spec (games st) 0); [lia | eauto].
Qed.

(** X12. With counters as the rounds leave them (wins between zero and the
    games), the win rate [show_stats] prints lies between 0 and 100. *)
Theorem win_rate_within_bounds (st : stats) (q : Q) :
  0 <= wins st <= games st ->
  In (WinRate q) (fst (show_stats st)) ->
  (0 <= q <= 100)%Q.
Proof.
  intros [Hw Hg]. unfold show_stats, Py.truediv.
  destruct (Z.gtb_spec (games st) 0) as [Hpos | Hnpos].
  - destruct (Z.eqb_spec (games st) 0); [lia|].
    cbn [fst app In].
    intros [Hx | [Hx | [Hx | [Hx | [Hx | []]]]]]; try discriminate Hx.
    inversion Hx; subst. clear Hx.
    destruct (games st) as [|g|g]; try lia.
    unfold Qle, Qmult, Qdiv, Qinv, inject_Z. cbn. split; nia.
  - cbn [fst app In].
    intros [Hx | [Hx | [Hx | [Hx | []]]]]; discriminate Hx.
Qed.

Lemma win_rate_within_bounds_witness :
  (0 <= (inject_Z 1 / inject_Z 3) * 100 <= 100)%Q.
Proof.
  apply (win_rate_within_bounds (Stats 3 1)).
  - cbn. lia.
  - cbn. tauto.
Defined.

(** ** The session *)

Lemma get_guess_suffix (self : config) (keys : list ascii) (out : list event)
    (v : guess_value) (rest : list ascii) :
  get_guess self keys = (out, Done v rest) ->
  exists used, used <> [] /\ keys = used ++ rest.
Proof.
  intros H. destruct (edit_reads_prefix _ _ _ _ _ _ H)
    as (used & last & -> & _ & _).
  exists (used ++ [last]). split.
  - now destruct used.
  - now rewrite <- app_assoc.
Qed.

Lemma play_loop_suffix (self : config) (target : Z) (bound : nat) :
  forall (attempts : Z) (st : stats) (keys : list ascii) (out : list event)
         (x : round_value * stats) (rest : list ascii),
    play_loop self target bound attempts st keys = (out, Done x rest) ->
    exists used, keys = used ++ rest.
Proof.
  induction bound as [|bound IH]; intros attempts st keys out x rest;
    cbn [play_loop]; destruct (attempts >? 0);
    try discriminate;
    try (intros Hrun; inversion Hrun; subst; now exists []).
  destruct (get_guess self keys) as [shown r] eqn:Hguess.
  destruct r as [[|guess] rest0 | e | buffer |]; try discriminate.
  - intros Hrun; inversion Hrun; subst.
    destruct (get_guess_suffix _ _ _ _ _ Hguess) as (used & _ & ->). eauto.
  - destruct (get_guess_suffix _ _ _ _ _ Hguess) as (used & _ & ->).
    destruct (guess =? target).
    + intros Hrun; inversion Hrun; subst. eauto.
    + destruct (play_loop self target bound (attempts - 1) st rest0)
        as [later r'] eqn:Hloop.
      intros Hrun; inversion Hrun; subst.
      destruct (IH _ _ _ _ _ _ Hloop) as (used' & ->).
      exists (used ++ used'). now rewrite app_assoc.
Qed.

Lemma play_round_suffix (self : config) (target : Z) (st : stats)
    (keys : list ascii) (out : list event) (x : round_value * stats)
    (rest : list ascii) :
  play_round self target st keys = (out, Done x rest) ->
  exists used, keys = used ++ rest.
Proof.
  unfold play_round, guessing_loop.
  destruct (play_loop self target (Z.to_nat (max_attempts self))
              (max_attempts self) st keys) as [later r] eqn:Hloop.
  intros Hrun; inversion Hrun; subst.
  eapply play_loop_suffix; eassumption.
Qed.

Lemma menu_reads (keys : list ascii) :
  forall (c : menu_choice) (rest : list ascii),
    menu keys = Some (c, rest) ->
    exists used, used <> [] /\ keys = used ++ rest.
Proof.
  induction keys as [|key keys IH]; intros c rest; cbn [menu]; [discriminate|].
  destruct (Ascii.eqb key " ").
  - intros H; inversion H; subst. now exists [key].
  - destruct (Ascii.eqb (Py.lower key) "q").
    + intros H; inversion H; subst. now exists [key].
    + intros H. destruct (IH _ _ H) as (used & _ & ->).
      now exists (key :: used).
Qed.

Section SessionFacts.

Variable self : config.
Variable targets : nat -> Z.

Lemma leave_with_stats_exits (st : stats) (rest : list ascii) :
  leave_with_stats st rest = (shown (fst (show_stats st)), Exited st rest).
Proof.
  unfold leave_with_stats.
  destruct (show_stats_returns st) as [out ->]. reflexivity.
Qed.

(** The bound [run] gives to its loop is never reached. *)
Lemma run_loop_within_bound (bound : nat) :
  forall (round : nat) (st : stats) (keys : list ascii),
    (List.length keys < bound)%nat ->
    snd (run_loop self targets bound round st keys) <> Unbounded.
Proof.
  induction bound as [|bound IH]; intros round st keys Hb; [lia|].
  cbn [run_loop].
  pose proof (play_round_within_bound self (targets round) st keys) as Hfin.
  destruct (play_round self (targets round) st keys) as [played r] eqn:Hround.
  cbn [snd] in Hfin.
  destruct r as [[[|] st'] rest | e | guess |]; cbn [snd];
    try discriminate; try contradiction.
  - destruct (games st' >? 0); [| discriminate].
    rewrite leave_with_stats_exits. discriminate.
  - destruct (menu rest) as [[[|] rest']|] eqn:Hmenu; try discriminate.
    + destruct (play_round_suffix _ _ _ _ _ _ _ Hround) as (used & ->).
      destruct (menu_reads _ _ _ Hmenu) as (used' & Hne & ->).
      assert (Hb' : (List.length rest' < bound)%nat).
      { rewrite !length_app in Hb. destruct used'; [contradiction|].
        simpl in Hb. lia. }
      specialize (IH (S round) st' rest' Hb').
      now destruct (run_loop self targets bound (S round) st' rest').
    + rewrite leave_with_stats_exits. discriminate.
Qed.

Lemma run_within_bound (st : stats) (keys : list ascii) :
  snd (run self targets st keys) <> Unbounded.
Proof. apply run_loop_within_bound. lia. Qed.

End SessionFacts.

Lemma editor_event_loop_event (l : list event) :
  Forall editor_event l -> Forall loop_event l.
Proof.
  induction 1 as [|e l He _ IH]; constructor; [| exact IH].
  now destruct e.
Qed.

Lemma play_loop_events (self : config) (target : Z) (bound : nat) :
  forall (attempts : Z) (st : stats) (keys : list ascii),
    Forall loop_event (fst (play_loop self target bound attempts st keys)).
Proof.
  induction bound as [|bound IH]; intros attempts st keys; cbn [play_loop];
    destruct (attempts >? 0); try (now constructor).
  pose proof (editor_event_loop_event _ (edit_events self keys "")) as Hed.
  unfold get_guess. destruct (edit self "" keys) as [shown r]. cbn [fst] in Hed.
  assert (Hshown : Forall loop_event (AttemptsRemaining attempts :: shown))
    by (constructor; [exact I | exact Hed]).
  destruct r as [[|guess] rest | e | buffer |]; try exact Hshown.
  destruct (guess =? target).
  - cbn [fst]. apply Forall_app. split; [exact Hshown|].
    unfold win_feedback. cbn. repeat constructor.
  - specialize (IH (attempts - 1) st rest).
    destruct (play_loop self target bound (attempts - 1) st rest) as [later r'].
    cbn [fst] in *. rewrite wrong_guess_feedback_events.
    apply Forall_app. split; [exact Hshown|].
    apply Forall_app. split; [| exact IH].
    apply Forall_app. split; [repeat constructor|].
    destruct (attempts - 1 =? 0); [| constructor].
    unfold lose_feedback. cbn. repeat constructor.
Qed.

Lemma loop_events_counts (l : list event) :
  Forall loop_event l ->
  count_events is_new_game (shown l) = O /\
  count_events is_stats_header (shown l) = O.
Proof.
  induction 1 as [|e l He _ [IH1 IH2]]; [now split|].
  cbn [shown map count_events]. fold (shown l). rewrite IH1, IH2.
  now destruct e.
Qed.

(** What a round prints, as the session counts it: one banner and no
    statistics. *)
Lemma play_round_counts (self : config) (target : Z) (st : stats)
    (keys : list ascii) :
  count_events is_new_game (shown (fst (play_round self target st keys))) = 1%nat /\
  count_events is_stats_header (shown (fst (play_round self target st keys))) = O.
Proof.
  unfold play_round, guessing_loop.
  pose proof (play_loop_events self target (Z.to_nat (max_attempts self))
                (max_attempts self) st keys) as Hev.
  destruct (play_loop self target (Z.to_nat (max_attempts self))
              (max_attempts self) st keys) as [later r].
  cbn [fst] in *. destruct (loop_events_counts _ Hev) as [H1 H2].
  cbn [shown map count_events is_new_game is_stats_header]. fold (shown later).
  rewrite H1, H2. now split.
Qed.

Lemma show_stats_counts (st : stats) :
  count_events is_stats_header (shown (fst (show_stats st))) = 1%nat.
Proof.
  unfold show_stats. destruct (games st >? 0); [| reflexivity].
  now destruct (Py.truediv (wins st) (games st)).
Qed.

Section SessionEnd.

Variable self : config.
Variable targets : nat -> Z.

Lemma run_loop_exits (bound : nat) :
  forall (round : nat) (st : stats) (keys : list ascii) (out : list screen)
         (st' : stats) (rest : list ascii),
    0 <= wins st <= games st ->
    run_loop self targets bound round st keys = (out, Exited st' rest) ->
    (exists before,
        out = before ++ shown (fst (show_stats st')) /\
        count_events is_stats_header before = O /\
        games st' = games st + Z.of_nat (count_events is_new_game before)) /\
    0 <= wins st' <= games st' /\ games st < games st'.
Proof.
  induction bound as [|bound IH]; intros round st keys out st' rest Hinv;
    cbn [run_loop]; [discriminate|].
  destruct (play_round_counts self (targets round) st keys) as [Hnew Hhead].
  destruct (play_round self (targets round) st keys) as [played r] eqn:Hround.
  cbn [fst] in Hnew, Hhead.
  destruct r as [[v st1] rest1 | e | guess |]; try discriminate.
  destruct (play_round_done _ _ _ _ _ _ _ _ Hround) as [Hgames Hend].
  assert (Hinv1 : 0 <= wins st1 <= games st1).
  { destruct Hend as [Hend | [Hend | Hend]];
      [ unfold ends_by_quit in Hend
      | unfold ends_by_win in Hend
      | unfold ends_exhausted in Hend ];
      destruct Hend as (_ & Hwins & _); lia. }
  destruct v.
  - (* the round was interrupted *)
    destruct (Z.gtb_spec (games st1) 0); [| lia].
    rewrite leave_with_stats_exits.
    intros Hrun; inversion Hrun; subst. clear Hrun.
    split; [| lia]. exists (shown played). repeat split; [assumption|].
    rewrite Hnew. lia.
  - destruct (menu rest1) as [[[|] rest2]|]; try discriminate.
    + (* space: another round *)
      destruct (run_loop self targets bound (S round) st1 rest2)
        as [later e] eqn:Hloop.
      intros Hrun; inversion Hrun; subst. clear Hrun.
      destruct (IH _ _ _ _ _ _ Hinv1 Hloop)
        as ((before & -> & Hhead' & Hgames') & Hinv' & Hlt).
      split; [| lia].
      exists (shown played ++ [MenuPrompt] ++ before). repeat split.
      * now rewrite <- !app_assoc.
      * rewrite !count_events_app, Hhead, Hhead'. reflexivity.
      * rewrite !count_events_app, Hnew. cbn [count_events is_new_game]. lia.
    + (* 'q': the session ends *)
      rewrite leave_with_stats_exits.
      intros Hrun; inversion Hrun; subst. clear Hrun.
      split; [| lia].
      exists (shown played ++ [MenuPrompt; Shown ClearScreen]). repeat split.
      * now rewrite <- !app_assoc.
      * rewrite !count_events_app, Hhead. reflexivity.
      * rewrite !count_events_app, Hnew. cbn [count_events is_new_game]. lia.
Qed.

(** X13. When [run] returns from counters that are not negative, it has
    printed the statistics once, as its last lines, and they are those of
    the counters at the end: of line 181, the test [games > 0] never
    fails. *)
Theorem run_shows_final_stats_once (st : stats) (keys : list ascii)
    (out : list screen) (st' : stats) (rest : list ascii) :
  0 <= wins st <= games st ->
  run self targets st keys = (out, Exited st' rest) ->
  exists before,
    out = before ++ shown (fst (show_stats st')) /\
    count_events is_stats_header before = O /\
    count_events is_stats_header out = 1%nat.
Proof.
  intros Hinv Hrun.
  destruct (run_loop_exits _ _ _ _ _ _ _ Hinv Hrun)
    as ((before & -> & Hhead & _) & _).
  exists before. repeat split; [assumption|].
  rewrite count_events_app, Hhead, show_stats_counts. reflexivity.
Qed.

(** X14. When [run] returns, the games counted are the games at the start
    plus one for every round begun (every new-game banner printed), the
    round that was interrupted included; at least one round was played, and
    the wins stay between zero and the games. *)
Theorem run_counts_rounds (st : stats) (keys : list ascii)
    (out : list screen) (st' : stats) (rest : list ascii) :
  0 <= wins st <= games st ->
  run self targets st keys = (out, Exited st' rest) ->
  games st' = games st + Z.of_nat (count_events is_new_game out) /\
  games st < games st' /\
  0 <= wins st' <= games st'.
Proof.
  intros Hinv Hrun.
  destruct (run_loop_exits _ _ _ _ _ _ _ Hinv Hrun)
    as ((before & -> & _ & Hgames) & Hinv' & Hlt).
  split; [| now split].
  rewrite count_events_app.
  assert (Hnone : count_events is_new_game (shown (fst (show_stats st'))) = O).
  { unfold show_stats. destruct (games st' >? 0); [| reflexivity].
    now destruct (Py.truediv (wins st') (games st')). }
  rewrite Hnone. lia.
Qed.

End SessionEnd.

Example main_two_rounds :
  snd (main two_targets two_rounds) = Exited (Stats 2 1) [].
Proof. reflexivity. Qed.

Lemma run_shows_final_stats_once_witness :
  exists before,
    fst (main two_targets two_rounds)
    = before ++ shown (fst (show_stats (Stats 2 1))) /\
    count_events is_stats_header before = O /\
    count_events is_stats_header (fst (main two_targets two_rounds)) = 1%nat.
Proof.
  apply (run_shows_final_stats_once default_config two_targets initial_stats
           two_rounds (fst (main two_targets two_rounds)) (Stats 2 1) []).
  - cbn. lia.
  - reflexivity.
Defined.

Lemma run_counts_rounds_witness :
  games (Stats 2 1)
  = 0 + Z.of_nat (count_events is_new_game (fst (main two_targets two_rounds))) /\
  0 < games (Stats 2 1) /\
  0 <= wins (Stats 2 1) <= games (Stats 2 1).
Proof.
  apply (run_counts_rounds default_config two_targets initial_stats
           two_rounds (fst (main two_targets two_rounds)) (Stats 2 1) []).
  - cbn. lia.
  - reflexivity.
Defined.

(** ** The session: the menu *)

(** X16. At the prompt "Press SPACE to play again, or 'q' to quit", keys
    other than space, 'q' and 'Q' are read and ignored: the choice is the
    one made by the first of these three keys. *)
Theorem menu_ignores_other_keys (skipped keys : list ascii) :
  Forall (fun key => menu_key key = false) skipped ->
  menu (skipped ++ keys) = menu keys.
Proof.
  induction 1 as [|key skipped Hkey _ IH]; [reflexivity|].
  cbn [app menu]. unfold menu_key in Hkey.
  apply orb_false_elim in Hkey. destruct Hkey as [-> ->]. exact IH.
Qed.

Lemma menu_ignores_other_keys_witness :
  menu (["x"; carriage_return; "7"]%char ++ ["Q"; " "]%char)
  = Some (Leave, [" "%char]).
Proof.
  rewrite (menu_ignores_other_keys ["x"; carriage_return; "7"]%char
             ["Q"; " "]%char).
  - reflexivity.
  - repeat constructor.
Defined.

(** ** The terminal: errors of [get_key] *)

Section RawInputReaderErrors.

Variable termios : Type.
Variable cfmakeraw : termios -> termios.

(** X17. When the settings of the terminal cannot be saved ([fileno] or
    [tcgetattr] raises), [get_key] raises that exception having made no
    other call: the terminal is not put in raw mode, nothing is read, and
    no settings are written. *)
Theorem get_key_fails_before_raw (w : Tty.world termios) (e : Py.exn) :
  Tty.faults w Tty.PFileno = Some e \/
  (Tty.faults w Tty.PFileno = None /\ Tty.faults w Tty.PTcgetattr = Some e) ->
  Tty.get_key cfmakeraw w
  = (Tty.Err e,
     Tty.World (Tty.attrs w) (Tty.stdin_fd w) (Tty.stdin w) (Tty.faults w)
       (Tty.calls w
        ++ match Tty.faults w Tty.PFileno with
           | Some _ => [Tty.Fileno]
           | None => [Tty.Fileno; Tty.Tcgetattr (Tty.stdin_fd w)]
           end)).
Proof.
  destruct w as [mode fd input f made0].
  cbn [Tty.faults Tty.attrs Tty.stdin_fd Tty.stdin Tty.calls].
  intros [H1 | [H1 H2]]; get_key_unfold; get_key_run f.
  - reflexivity.
  - now rewrite <- app_assoc.
Qed.

(** X18. When the restoring [tcsetattr] raises, its exception is what
    leaves [get_key], whatever the read gave: a character that was read is
    lost, and the terminal stays in the mode the try block left it in (raw,
    if [setraw] had succeeded). *)
Theorem get_key_restore_failure (w : Tty.world termios) (e : Py.exn) :
  Tty.faults w Tty.PFileno = None ->
  Tty.faults w Tty.PTcgetattr = None ->
  Tty.faults w Tty.PTcsetattr = Some e ->
  fst (Tty.get_key cfmakeraw w) = Tty.Err e /\
  Tty.attrs (snd (Tty.get_key cfmakeraw w))
  = match Tty.faults w Tty.PSetraw with
    | Some _ => Tty.attrs w
    | None => cfmakeraw (Tty.attrs w)
    end /\
  Tty.stdin (snd (Tty.get_key cfmakeraw w))
  = match Tty.faults w Tty.PSetraw, Tty.faults w Tty.PRead with
    | None, None => List.tl (Tty.stdin w)
    | _, _ => Tty.stdin w
    end.
Proof.
  destruct w as [mode fd input f made0].
  cbn [Tty.faults Tty.attrs Tty.stdin_fd Tty.stdin Tty.calls].
  intros H1 H2 H5. get_key_unfold. destruct input as [|c input];
    get_key_run f; repeat split.
Qed.

End RawInputReaderErrors.

Lemma get_key_fails_before_raw_witness :
  Tty.get_key (fun _ => Tty.Raw)
    (Tty.console (failing Tty.PTcgetattr Py.TermiosError))
  = (Tty.Err Py.TermiosError,
     Tty.World Tty.Cooked 0 ["7"%char; "013"%char]
       (failing Tty.PTcgetattr Py.TermiosError)
       [Tty.Fileno; Tty.Tcgetattr 0]).
Proof.
  apply (get_key_fails_before_raw Tty.mode (fun _ => Tty.Raw)
           (Tty.console (failing Tty.PTcgetattr Py.TermiosError))
           Py.TermiosError).
  right. split; reflexivity.
Defined.

Lemma get_key_restore_failure_witness :
  let w := Tty.console (failing Tty.PTcsetattr Py.TermiosError) in
  fst (Tty.get_key (fun _ => Tty.Raw) w) = Tty.Err Py.TermiosError /\
  Tty.attrs (snd (Tty.get_key (fun _ => Tty.Raw) w)) = Tty.Raw /\
  Tty.stdin (snd (Tty.get_key (fun _ => Tty.Raw) w)) = ["013"%char].
Proof.
  apply (get_key_restore_failure Tty.mode (fun _ => Tty.Raw)
           (Tty.console (failing Tty.PTcsetattr Py.TermiosError))
           Py.TermiosError); reflexivity.
Defined.

(** ** The guess editor: a key that makes it raise; a round without attempts *)

Lemma edit_resumes (self : config) (keys more : list ascii) :
  forall (guess : string) (out : list event) (buffer : string),
    edit self guess keys = (out, Waiting buffer) ->
    exists before,
      out = before ++ [Prompt buffer] /\
      edit self guess (keys ++ more)
      = (before ++ fst (edit self buffer more), snd (edit self buffer more)).
Proof.
  induction keys as [|ch keys IH]; intros guess out buffer.
  - cbn [edit app]. intros H; inversion H; subst. exists [].
    split; [reflexivity|]. cbn [app]. now destruct (edit self buffer more).
  - cbn [edit app]. destruct (on_key self guess ch) as [printed next].
    destruct next as [guess' | v | e]; try discriminate.
    destruct (edit self guess' keys) as [later r] eqn:He.
    intros H; inversion H; subst.
    destruct (IH _ _ _ He) as (before & -> & Hmore). rewrite Hmore.
    exists (Prompt guess :: printed ++ before). split.
    + cbn [app]. f_equal. apply app_assoc.
    + cbn [app]. f_equal. f_equal. apply app_assoc.
Qed.

Lemma on_key_submit_raises (self : config) (guess : string) (e : Py.exn) :
  Py.isdigit guess = true ->
  Py.int guess = inl e ->
  on_key self guess carriage_return = ([Newline], Raises e).
Proof.
  intros Hd Hint. unfold on_key.
  change (Ascii.eqb (Py.lower carriage_return) "x") with false.
  change (Ascii.eqb carriage_return delete) with false.
  change (Ascii.eqb carriage_return backspace) with false.
  change (Ascii.eqb carriage_return carriage_return) with true.
  cbn [orb andb]. rewrite Hd, Hint.
  assert (Ht : Py.truthy guess = true)
    by (destruct guess; [discriminate Hd | reflexivity]).
  now rewrite Ht.
Qed.

(** X8. A superscript digit (one, two or three: a digit for [isdigit] that
    [int] does not read) typed while the buffer has room, then Enter, makes
    [get_guess] raise [ValueError]: the key is taken into the buffer like
    any digit, the buffer passes the test of line 76, and [int] fails on
    it at line 82. *)
Theorem superscript_then_enter_raises (self : config) (keys : list ascii)
    (out : list event) (buffer : string) (c : ascii) (rest : list ascii) :
  get_guess self keys = (out, Waiting buffer) ->
  Py.len buffer < Py.len (Py.str (max_num self)) ->
  superscript c = true ->
  snd (get_guess self (keys ++ c :: carriage_return :: rest))
  = Failed Py.ValueError.
Proof.
  intros Hwait Hroom Hc. unfold superscript in Hc.
  apply andb_prop in Hc. destruct Hc as [Hdigit Hdec].
  apply negb_true_iff in Hdec.
  destruct (edit_resumes self keys (c :: carriage_return :: rest) _ _ _ Hwait)
    as (before & Hout & Hrun).
  assert (Hbuf : Py.forallb_string Py.isdigit_char buffer = true).
  { apply (edit_shows_digits self keys "" buffer eq_refl).
    unfold get_guess in Hwait. rewrite Hwait, Hout. cbn [fst].
    apply in_or_app. right. now left. }
  unfold get_guess at 1. rewrite Hrun. cbn [snd edit].
  rewrite (on_key_digit self buffer c Hdigit).
  destruct (Z.ltb_spec (Py.len buffer) (Py.len (Py.str (max_num self))));
    [| lia].
  rewrite (on_key_submit_raises self (Py.push buffer c) Py.ValueError).
  - reflexivity.
  - rewrite isdigit_all, truthy_push, forallb_push, Hbuf, Hdigit. reflexivity.
  - unfold Py.int. rewrite forallb_push, Hdec, andb_false_r, andb_false_r.
    reflexivity.
Qed.

Lemma superscript_then_enter_raises_witness :
  snd (get_guess (Config 1 99 3)
         (["1"%char] ++ "178"%char :: carriage_return :: ["5"%char]))
  = Failed Py.ValueError.
Proof.
  apply (superscript_then_enter_raises (Config 1 99 3) ["1"%char]
           [Prompt ""; Prompt "1"] "1" "178"%char ["5"%char]).
  - reflexivity.
  - reflexivity.
  - reflexivity.
Defined.

(** X22. A game constructed with no attempt ([max_attempts] zero or
    negative) asks for no guess: each round prints its banner, reads no
    key, counts one game played and none won, and returns 'continue'. *)
Theorem round_without_attempts (self : config) (target : Z) (st : stats)
    (keys : list ascii) :
  max_attempts self <= 0 ->
  play_round self target st keys
  = ([ClearScreen; NewGame (min_num self) (max_num self) (max_attempts self)],
     Done (RoundContinue, Stats (games st + 1) (wins st)) keys).
Proof.
  intros Hnone. unfold play_round, guessing_loop.
  replace (Z.to_nat (max_attempts self)) with O by lia. cbn [play_loop].
  destruct (Z.gtb_spec (max_attempts self) 0); [lia | reflexivity].
Qed.

Lemma round_without_attempts_witness :
  play_round (Config 1 10 0) 5 initial_stats ["7"%char]
  = ([ClearScreen; NewGame 1 10 0],
     Done (RoundContinue, Stats 1 0) ["7"%char]).
Proof.
  apply (round_without_attempts (Config 1 10 0) 5 initial_stats ["7"%char]).
  cbn. lia.
Defined.
